(** * The device REST facade of quote0-api-demo

    A shallow embedding of [src/lib/schemas.ts] (the Zod schemas and
    [normalizeDeviceData]) and of [src/app/dot/api/devices/route.ts] (the
    GET, POST, PUT and DELETE handlers), followed by the properties of the
    handlers.

    The handlers are asynchronous functions that talk to a remote key-value
    namespace, read the clock and call a downstream text API.  They are
    modelled in a state-and-exception monad over a [World]; everything the
    JavaScript engine, Zod, the key-value service and the network decide is
    gathered in an [Env] record, and the theorems are stated for every
    [Env]; [Reference.env] is one on which the handlers run. *)

From Stdlib Require Import ZArith Ascii String DecimalString.
From stdpp Require Import base option list strings gmap fin_maps.

Open Scope string_scope.
Set Warnings "-register-all".

(** ** JavaScript values

    Values that cross [JSON.parse] and [JSON.stringify].  Numbers are the
    integers; a JavaScript string is a [string], one character per code
    unit.  [undefined] is not a [json]: a property read returns an
    [option json], and an object literal drops the properties whose value is
    [undefined], as [JSON.stringify] does.  An object keeps its properties
    in insertion order, the index properties that an array or a string
    spreads into included. *)

Inductive json : Type :=
| JNull
| JBool (b : bool)
| JNum (n : Z)
| JStr (s : string)
| JArr (items : list json)
| JObj (fields : list (string * json)).

Definition is_empty (s : string) : bool :=
  match s with EmptyString => true | String _ _ => false end.

(** [if (v)] on a value that may be [undefined]. *)
Definition truthy (v : option json) : bool :=
  match v with
  | None | Some JNull => false
  | Some (JBool b) => b
  | Some (JNum n) => negb (n =? 0)%Z
  | Some (JStr s) => negb (is_empty s)
  | Some (JArr _) | Some (JObj _) => true
  end.

Fixpoint assoc {A} (k : string) (fs : list (string * A)) : option A :=
  match fs with
  | [] => None
  | (k', v) :: rest => if String.eqb k' k then Some v else assoc k rest
  end.

(** [{ ...fs, k: v }]: an existing property keeps its place. *)
Fixpoint obj_set (k : string) (v : json) (fs : list (string * json))
  : list (string * json) :=
  match fs with
  | [] => [(k, v)]
  | (k', v') :: rest =>
      if String.eqb k' k then (k, v) :: rest else (k', v') :: obj_set k v rest
  end.

(** A property whose value may be [undefined]. *)
Definition obj_set_opt (k : string) (v : option json)
    (fs : list (string * json)) : list (string * json) :=
  match v with Some x => obj_set k x fs | None => fs end.

(** An object literal [{ k1: v1, ..., kn: vn }]. *)
Definition obj_lit (props : list (string * option json))
  : list (string * json) :=
  fold_left (fun acc kv => obj_set_opt kv.1 kv.2 acc) props [].

(** [{ ...a, ...b }] *)
Definition obj_spread (a b : list (string * json)) : list (string * json) :=
  fold_left (fun acc kv => obj_set kv.1 kv.2 acc) b a.

Definition string_of_nat (n : nat) : string :=
  NilZero.string_of_uint (Nat.to_uint n).

Definition string_of_Z (z : Z) : string :=
  match z with
  | Z0 => "0"
  | Zpos p => string_of_nat (Pos.to_nat p)
  | Zneg p => "-" ++ string_of_nat (Pos.to_nat p)
  end.

Fixpoint indexed_from (i : nat) (l : list json) : list (string * json) :=
  match l with
  | [] => []
  | x :: rest => (string_of_nat i, x) :: indexed_from (S i) rest
  end.

Fixpoint chars (s : string) : list json :=
  match s with
  | EmptyString => []
  | String c rest => JStr (String c EmptyString) :: chars rest
  end.

(** The own enumerable properties that [{ ...v }] copies. *)
Definition own_entries (v : json) : list (string * json) :=
  match v with
  | JObj fs => fs
  | JArr l => indexed_from 0 l
  | JStr s => indexed_from 0 (chars s)
  | JNull | JBool _ | JNum _ => []
  end.

Definition join_with (sep : string) (l : list string) : string :=
  match l with
  | [] => ""
  | x :: rest => fold_left (fun acc y => acc ++ sep ++ y) rest x
  end.

(** String conversion, as a template literal performs it. *)
Fixpoint js_to_string (v : json) : string :=
  match v with
  | JNull => "null"
  | JBool true => "true"
  | JBool false => "false"
  | JNum n => string_of_Z n
  | JStr s => s
  | JArr l =>
      join_with ","
        (map (fun x => match x with JNull => "" | _ => js_to_string x end) l)
  | JObj _ => "[object Object]"
  end.

(** [a || b] on values. *)
Definition value_or (a : option json) (b : json) : json :=
  match a with
  | Some x => if truthy a then x else b
  | None => b
  end.

Definition template (v : option json) : string :=
  match v with None => "undefined" | Some x => js_to_string x end.

(** [hay.includes(needle)] *)
Fixpoint includes (needle hay : string) : bool :=
  String.prefix needle hay ||
  match hay with
  | EmptyString => false
  | String _ rest => includes needle rest
  end.

(** ** Exceptions *)

(** An issue of a ZodError: [err.path] and [err.message]. *)
Record ZodIssue := { issue_path : list string; issue_message : string }.

Inductive Exn : Type :=
| ZodError (errors : list ZodIssue)
| JsError (msg : string)        (* any other instance of Error *)
| NotAnError.                   (* a thrown value that is no Error *)

Definition TypeError (what : string) : Exn := JsError what.

(** [error instanceof Error && error.message.includes("not found")].  The
    message of a ZodError is the serialised issue list, whose texts all
    come from the schemas below or from Zod; none contains that phrase. *)
Definition is_not_found (e : Exn) : bool :=
  match e with
  | JsError m => includes "not found" m
  | ZodError _ | NotAnError => false
  end.

Inductive outcome (A : Type) : Type :=
| Returns (a : A)
| Throws (e : Exn).
Arguments Returns {A} a.
Arguments Throws {A} e.

(** A property read [v.k] from a value that is not [null], for the names
    route.ts reads ([createdAt], [content], [deviceId], [ownerKey] and the
    four properties of a content object): an object answers with its own
    property, and no other value route.ts reads from has one of these. *)
Definition member (k : string) (v : json) : option json :=
  match v with
  | JObj fs => assoc k fs
  | JNull | JBool _ | JNum _ | JStr _ | JArr _ => None
  end.

(** A property read [v.k] from a value that may be [null]. *)
Definition read (k : string) (v : json) : outcome (option json) :=
  match v with
  | JNull =>
      Throws (TypeError ("Cannot read properties of null (reading '" ++ k ++ "')"))
  | _ => Returns (member k v)
  end.

(** ** The outside world *)

(** The request that the Notification call hands to [fetch]. *)
Record FetchCall := {
  url : string;
  method : string;
  headers : list (string * string);
  body : string
}.

Record FetchResponse := { fr_status : nat; fr_ok : bool; fr_statusText : string }.

(** What the engine, Zod, the key-value service and the network decide.
    [clock i] is the text that the [i]-th evaluation of
    [new Date().toISOString()] yields; a fault makes the corresponding
    call of the Cloudflare client throw. *)
Record Env := {
  JSON_parse : string -> outcome json;
  JSON_stringify : json -> string;
  isDatetime : string -> bool;           (* the pattern behind z.string().datetime() *)
  clock : nat -> string;
  keys_fault : option Exn;               (* kv.namespaces.keys.list *)
  get_fault : string -> option Exn;      (* kv.namespaces.values.get *)
  put_fault : string -> option Exn;      (* kv.namespaces.values.update *)
  delete_fault : string -> option Exn;   (* kv.namespaces.values.delete *)
  fetch : FetchCall -> outcome FetchResponse
}.

(** One key of the namespace: the stored text and the options of the write. *)
Record Entry := {
  entry_value : string;
  entry_metadata : option json;
  entry_ttl : option Z
}.

(** The mutable state a request can touch: the namespace, the number of
    clock readings taken so far, and the downstream calls attempted. *)
Record World := {
  kv : gmap string Entry;
  ticks : nat;
  outbox : list FetchCall
}.

(** ** schemas.ts *)

Record DeviceContent := {
  title : option string;
  message : option string;
  signature : option string;
  link : option string
}.

Record Device := {
  owner : string;
  ownerKey : string;
  deviceId : string;
  name : string;
  content : DeviceContent;
  createdAt : option string;
  updatedAt : option string
}.

Record CreateDeviceRequest := {
  key : string;
  value : Device;
  metadata : option json;
  ttl : option Z
}.

Definition UpdateDeviceRequest := CreateDeviceRequest.

Record UpdateDeviceContentRequest := {
  content_key : string;        (* key *)
  content_patch : DeviceContent (* content *)
}.

(** The result of [schema.safeParse]: the issues found, or the output. *)
Definition zres (A : Type) : Type := (list ZodIssue + A)%type.

(** Zod reports the issues of all properties of an object together. *)
Definition zap {A B} (f : zres (A -> B)) (x : zres A) : zres B :=
  match f, x with
  | inr g, inr a => inr (g a)
  | inl i, inr _ => inl i
  | inr _, inl j => inl j
  | inl i, inl j => inl (i ++ j)%list
  end.
Infix "<*>" := zap (at level 61, left associativity).

Definition parsed_type (v : option json) : string :=
  match v with
  | None => "undefined"
  | Some JNull => "null"
  | Some (JBool _) => "boolean"
  | Some (JNum _) => "number"
  | Some (JStr _) => "string"
  | Some (JArr _) => "array"
  | Some (JObj _) => "object"
  end.

Definition invalid_type (p : list string) (expected : string)
    (v : option json) : list ZodIssue :=
  [{| issue_path := p;
      issue_message := match v with
                 | None => "Required"
                 | Some _ => "Expected " ++ expected ++ ", received " ++ parsed_type v
                 end |}].

(** One refinement of a string schema: the test and the message. *)
Definition check := ((string -> bool) * string)%type.

Definition z_min (n : nat) (msg : string) : check :=
  (fun s => (n <=? String.length s)%nat, msg).
Definition z_max (n : nat) (msg : string) : check :=
  (fun s => (String.length s <=? n)%nat, msg).
Definition z_regex (re : string -> bool) (msg : string) : check := (re, msg).

Definition run_checks (p : list string) (cs : list check) (s : string)
  : list ZodIssue :=
  omap (fun c : check =>
          if c.1 s then None else Some {| issue_path := p; issue_message := c.2 |}) cs.

Definition z_string (cs : list check) (p : list string) (v : option json)
  : zres string :=
  match v with
  | Some (JStr s) =>
      match run_checks p cs s with [] => inr s | issues => inl issues end
  | _ => inl (invalid_type p "string" v)
  end.

Definition z_optional {A} (schema : list string -> option json -> zres A)
    (p : list string) (v : option json) : zres (option A) :=
  match v with
  | None => inr None
  | Some _ =>
      match schema p v with inr a => inr (Some a) | inl i => inl i end
  end.

Definition z_object {A} (shape : list string -> list (string * json) -> zres A)
    (p : list string) (v : option json) : zres A :=
  match v with
  | Some (JObj fs) => shape p fs
  | _ => inl (invalid_type p "object" v)
  end.

(** [z.record(z.any())] *)
Definition z_record_any (p : list string) (v : option json) : zres json :=
  match v with
  | Some (JObj fs) => inr (JObj fs)
  | _ => inl (invalid_type p "object" v)
  end.

(** [z.number().min(lo).max(hi)] *)
Definition z_number (lo hi : Z) (p : list string) (v : option json) : zres Z :=
  match v with
  | Some (JNum n) =>
      let small :=
        if (lo <=? n)%Z then []
        else [{| issue_path := p;
                 issue_message := "Number must be greater than or equal to "
                            ++ string_of_Z lo |}] in
      let big :=
        if (n <=? hi)%Z then []
        else [{| issue_path := p;
                 issue_message := "Number must be less than or equal to "
                            ++ string_of_Z hi |}] in
      match (small ++ big)%list with [] => inr n | issues => inl issues end
  | _ => inl (invalid_type p "number" v)
  end.

(** The property [k] of the object being parsed, under path [p]. *)
Definition field {A} (schema : list string -> option json -> zres A)
    (p : list string) (fs : list (string * json)) (k : string) : zres A :=
  schema (p ++ [k])%list (assoc k fs).

Definition all_chars (f : ascii -> bool) (s : string) : bool :=
  forallb f (list_ascii_of_string s).

Definition is_digit (c : ascii) : bool :=
  let n := nat_of_ascii c in ((48 <=? n) && (n <=? 57))%nat.
Definition is_upper (c : ascii) : bool :=
  let n := nat_of_ascii c in ((65 <=? n) && (n <=? 90))%nat.
Definition is_lower (c : ascii) : bool :=
  let n := nat_of_ascii c in ((97 <=? n) && (n <=? 122))%nat.
Definition is_upper_hex (c : ascii) : bool :=
  let n := nat_of_ascii c in is_digit c || ((65 <=? n) && (n <=? 70))%nat.

(** [/^dot_app_[A-Za-z0-9]{64}$/] *)
Definition re_ownerKey (s : string) : bool :=
  String.prefix "dot_app_" s &&
  let rest := String.substring 8 (String.length s - 8) s in
  (String.length rest =? 64)%nat &&
  all_chars (fun c => is_upper c || is_lower c || is_digit c) rest.

(** [/^[A-F0-9]{12}$/] *)
Definition re_deviceId (s : string) : bool :=
  (String.length s =? 12)%nat && all_chars is_upper_hex s.

Definition content_to_json (c : DeviceContent) : json :=
  JObj (obj_lit [("title", JStr <$> title c);
                 ("message", JStr <$> message c);
                 ("signature", JStr <$> signature c);
                 ("link", JStr <$> link c)]).

(** The object that [DeviceSchema.parse] returns: the properties of the
    shape in its order, the absent optional ones left out. *)
Definition device_fields (d : Device) : list (string * json) :=
  obj_lit [("owner", Some (JStr (owner d)));
           ("ownerKey", Some (JStr (ownerKey d)));
           ("deviceId", Some (JStr (deviceId d)));
           ("name", Some (JStr (name d)));
           ("content", Some (content_to_json (content d)));
           ("createdAt", JStr <$> createdAt d);
           ("updatedAt", JStr <$> updatedAt d)].

Definition device_to_json (d : Device) : json := JObj (device_fields d).

(** [validateDeviceOwnership] *)
Definition validateDeviceOwnership (device : Device) (o k : string) : bool :=
  String.eqb (owner device) o && String.eqb (ownerKey device) k.

(** ** The request monad: state and exceptions *)

Definition M (A : Type) : Type := World -> outcome A * World.

#[global] Instance M_ret : MRet M := fun A a w => (Returns a, w).

#[global] Instance M_bind : MBind M := fun A B f m w =>
  match m w with
  | (Returns a, w') => f a w'
  | (Throws e, w') => (Throws e, w')
  end.

Definition throw {A} (e : Exn) : M A := fun w => (Throws e, w).

Definition lift {A} (o : outcome A) : M A := fun w => (o, w).

(** [try { m } catch (e) { handler e }]; the effects of [m] up to the throw
    are kept. *)
Definition try_catch {A} (m : M A) (handler : Exn -> M A) : M A := fun w =>
  match m w with
  | (Returns a, w') => (Returns a, w')
  | (Throws e, w') => handler e w'
  end.

(** [schema.parse(data)] *)
Definition parse {A} (schema : list string -> option json -> zres A)
    (data : json) : outcome A :=
  match schema [] (Some data) with
  | inr a => Returns a
  | inl issues => Throws (ZodError issues)
  end.

(** What a route handler returns: [NextResponse.json(body, { status })]. *)
Record Response := { status : nat; payload : json }.

Definition NextResponse_json (fields : list (string * json)) (st : nat)
  : Response := {| status := st; payload := JObj fields |}.

(** The world after one more reading of the clock. *)
Definition tick (w : World) : World :=
  {| kv := kv w; ticks := S (ticks w); outbox := outbox w |}.

(** The body [{ success: true, type, timestamp, ...data }] of
    [createSuccessResponse]. *)
Definition success_envelope (data : list (string * json)) (type : string)
    (timestamp : string) : Response :=
  NextResponse_json
    (obj_spread [("success", JBool true); ("type", JStr type);
                 ("timestamp", JStr timestamp)] data) 200.

(** The object [{ ...rawData, createdAt: rawData.createdAt || now,
    updatedAt: now }] that [normalizeDeviceData] returns. *)
Definition stamped (rawData : list (string * json)) (now : string)
  : list (string * json) :=
  obj_set "updatedAt" (JStr now)
    (obj_set "createdAt" (value_or (assoc "createdAt" rawData) (JStr now))
       rawData).

Section Route.

Context (env : Env).

(** *** schemas.ts, continued *)

Definition DeviceContentSchema : list string -> option json -> zres DeviceContent :=
  z_object (fun p fs =>
    inr Build_DeviceContent
    <*> field (z_optional (z_string [z_max 100 "标题不能超过100个字符"])) p fs "title"
    <*> field (z_optional (z_string [z_max 500 "内容不能超过500个字符"])) p fs "message"
    <*> field (z_optional (z_string [z_max 50 "签名不能超过50个字符"])) p fs "signature"
    <*> field (z_optional (z_string [])) p fs "link").

Definition z_datetime : check := (isDatetime env, "Invalid datetime").

Definition DeviceSchema : list string -> option json -> zres Device :=
  z_object (fun p fs =>
    inr Build_Device
    <*> field (z_string [z_min 1 "拥有者不能为空";
                         z_max 30 "拥有者不能超过30个字符"]) p fs "owner"
    <*> field (z_string [z_regex re_ownerKey "API密钥格式不正确"]) p fs "ownerKey"
    <*> field (z_string [z_regex re_deviceId "设备ID必须是12位十六进制字符"])
          p fs "deviceId"
    <*> field (z_string [z_min 1 "设备名称不能为空";
                         z_max 50 "设备名称不能超过50个字符"]) p fs "name"
    <*> field DeviceContentSchema p fs "content"
    <*> field (z_optional (z_string [z_datetime])) p fs "createdAt"
    <*> field (z_optional (z_string [z_datetime])) p fs "updatedAt").

Definition CreateDeviceRequestSchema
  : list string -> option json -> zres CreateDeviceRequest :=
  z_object (fun p fs =>
    inr Build_CreateDeviceRequest
    <*> field (z_string [z_min 1 "设备ID不能为空"]) p fs "key"
    <*> field DeviceSchema p fs "value"
    <*> field (z_optional z_record_any) p fs "metadata"
    <*> field (z_optional (z_number 60 31536000)) p fs "ttl").

Definition UpdateDeviceRequestSchema := CreateDeviceRequestSchema.

Definition UpdateDeviceContentRequestSchema
  : list string -> option json -> zres UpdateDeviceContentRequest :=
  z_object (fun p fs =>
    inr Build_UpdateDeviceContentRequest
    <*> field (z_string [z_min 1 "设备ID不能为空"]) p fs "key"
    <*> field DeviceContentSchema p fs "content").

Definition validateDevice (data : json) : outcome Device :=
  parse DeviceSchema data.

(** [new Date().toISOString()] *)
Definition Date_now : M string := fun w =>
  (Returns (clock env (ticks w)), tick w).

(** [a || b] where [b] is an effect, run only when [a] is falsy. *)
Definition or_else (a : option json) (b : M json) : M json :=
  match a with
  | Some x => if truthy a then mret x else b
  | None => b
  end.

(** [normalizeDeviceData]; [rawData] is an object at both call sites. *)
Definition normalizeDeviceData (rawData : list (string * json))
  : M (list (string * json)) :=
  now ← Date_now;
  mret (stamped rawData now).

(** *** The Cloudflare client, one namespace *)

Definition keys_list : M (list string) :=
  match keys_fault env with
  | Some e => throw e
  | None => fun w => (Returns (map_to_list (kv w)).*1, w)
  end.

(** The body text of the response, or [None] for a falsy result, which is
    what a key that is not in the namespace answers with here; a client
    that throws for such a key is a [get_fault]. *)
Definition values_get (name : string) : M (option string) :=
  match get_fault env name with
  | Some e => throw e
  | None => fun w => (Returns (entry_value <$> kv w !! name), w)
  end.

Definition values_update (name : string) (text : string)
    (md : option json) (expiration_ttl : option Z) : M unit :=
  match put_fault env name with
  | Some e => throw e
  | None => fun w =>
      (Returns tt,
       {| kv := <[name := {| entry_value := text; entry_metadata := md;
                             entry_ttl := expiration_ttl |}]> (kv w);
          ticks := ticks w; outbox := outbox w |})
  end.

Definition values_delete (name : string) : M unit :=
  match delete_fault env name with
  | Some e => throw e
  | None => fun w =>
      (Returns tt,
       {| kv := delete name (kv w); ticks := ticks w; outbox := outbox w |})
  end.

(** [fetch(url, init)]: the call is recorded, then the network answers. *)
Definition do_fetch (call : FetchCall) : M FetchResponse := fun w =>
  (fetch env call,
   {| kv := kv w; ticks := ticks w; outbox := (outbox w ++ [call])%list |}).

(** *** route.ts *)

Definition issue_to_json (err : ZodIssue) : json :=
  JObj [("path", JStr (join_with "." (issue_path err)));
        ("message", JStr (issue_message err))].

Definition handleError (error : Exn) (operation : string) : Response :=
  match error with
  | ZodError errors =>
      NextResponse_json
        [("error", JStr "数据验证失败");
         ("details", JArr (map issue_to_json errors))] 400
  | JsError msg =>
      NextResponse_json
        [("error", JStr (operation ++ "失败")); ("details", JStr msg)] 500
  | NotAnError =>
      NextResponse_json
        [("error", JStr (operation ++ "失败")); ("details", JStr "未知错误")] 500
  end.

Definition createSuccessResponse (data : list (string * json)) (type : string)
  : M Response :=
  timestamp ← Date_now;
  mret (success_envelope data type timestamp).

Definition devices_json (devices : list Device) : json :=
  JArr (map device_to_json devices).

Definition count_json {A} (l : list A) : json := JNum (Z.of_nat (length l)).

(** [searchParams.get(name)] is a string or [null]. *)
Record Query := {
  q_key : option string;
  q_owner : option string;
  q_ownerKey : option string;
  q_deleteAll : option string
}.

Definition given (p : option string) : bool :=
  match p with Some s => negb (is_empty s) | None => false end.

Definition param (p : option string) : string := default "" p.

(** One turn of the loop of the owner branch of GET. *)
Definition visit_owned (o k : string) (devices : list Device) (item : string)
  : M (list Device) :=
  try_catch
    (result ← values_get item;
     match result with
     | Some resultText =>
         if negb (is_empty resultText) then
           deviceData ← lift (JSON_parse env resultText);
           try_catch
             (validatedDevice ← lift (validateDevice deviceData);
              if String.eqb (owner validatedDevice) o
                 && String.eqb (ownerKey validatedDevice) k
              then mret (devices ++ [validatedDevice])%list
              else mret devices)
             (fun _ => mret devices)
         else mret devices
     | None => mret devices
     end)
    (fun _ => mret devices).

(** One turn of the loop of the list-all branch of GET. *)
Definition visit_any (devices : list Device) (item : string) : M (list Device) :=
  try_catch
    (result ← values_get item;
     match result with
     | Some resultText =>
         if negb (is_empty resultText) then
           deviceData ← lift (JSON_parse env resultText);
           try_catch
             (validatedDevice ← lift (validateDevice deviceData);
              mret (devices ++ [validatedDevice])%list)
             (fun _ => mret devices)
         else mret devices
     | None => mret devices
     end)
    (fun _ => mret devices).

(** [for (const item of items) { acc = visit acc item }] *)
Fixpoint for_of {A} (visit : A -> string -> M A) (items : list string) (acc : A)
  : M A :=
  match items with
  | [] => mret acc
  | item :: rest => acc' ← visit acc item; for_of visit rest acc'
  end.

Definition not_found_device : Response :=
  NextResponse_json [("error", JStr "未找到指定的设备")] 404.

Definition GET (q : Query) : M Response :=
  try_catch
    (if given (q_owner q) && given (q_ownerKey q) then
       keysList ← keys_list;
       devices ← for_of (visit_owned (param (q_owner q)) (param (q_ownerKey q)))
                   keysList [];
       createSuccessResponse
         [("owner", JStr (param (q_owner q)));
          ("devices", devices_json devices);
          ("count", count_json devices)]
         "devices_by_owner"
     else if negb (given (q_key q)) then
       keysList ← keys_list;
       devices ← for_of visit_any keysList [];
       createSuccessResponse
         [("devices", devices_json devices); ("count", count_json devices)]
         "all_devices"
     else
       try_catch
         (result ← values_get (param (q_key q));
          match result with
          | None => mret not_found_device
          | Some resultText =>
              deviceData ← lift (JSON_parse env resultText);
              validatedDevice ← lift (validateDevice deviceData);
              createSuccessResponse
                [("key", JStr (param (q_key q)));
                 ("device", device_to_json validatedDevice)]
                "device_details"
          end)
         (fun error =>
            if is_not_found error then mret not_found_device else throw error))
    (fun error => mret (handleError error "获取设备数据")).

Definition POST (request_json : outcome json) : M Response :=
  try_catch
    (body ← lift request_json;
     validatedRequest ← lift (parse CreateDeviceRequestSchema body);
     conflict ←
       try_catch
         (existingDevice ← values_get (key validatedRequest);
          match existingDevice with
          | Some existingText =>
              if negb (is_empty existingText) then
                mret (Some (NextResponse_json
                              [("error", JStr "设备已存在，请使用PUT方法更新")] 409))
              else mret None
          | None => mret None
          end)
         (fun _ => mret None);
     match conflict with
     | Some response => mret response
     | None =>
         normalizedDevice ← normalizeDeviceData
                              (device_fields (value validatedRequest));
         values_update (key validatedRequest)
           (JSON_stringify env (JObj normalizedDevice))
           (metadata validatedRequest) (ttl validatedRequest);;
         createSuccessResponse
           [("message", JStr "设备创建成功");
            ("key", JStr (key validatedRequest));
            ("device", JObj normalizedDevice)]
           "device_created"
     end)
    (fun error => mret (handleError error "创建设备")).

(** After the first half of PUT: the key, the merged data and the options
    of the write. *)
Record Update := {
  u_key : string;
  u_data : list (string * json);
  u_metadata : option json;
  u_ttl : option Z
}.

Definition no_device : Response :=
  NextResponse_json [("error", JStr "设备不存在")] 404.

(** The [try] block of PUT: the body read as a content update.  [inl] is a
    response returned from inside the block. *)
Definition content_update (body : json) : M (Response + Update) :=
  contentRequest ← lift (parse UpdateDeviceContentRequestSchema body);
  existingData ← values_get (content_key contentRequest);
  match existingData with
  | None => mret (inl no_device)
  | Some existingText =>
      if is_empty existingText then mret (inl no_device)
      else
        existing ← lift (JSON_parse env existingText);
        now ← Date_now;
        mret (inr {| u_key := content_key contentRequest;
                     u_data :=
                       obj_set "updatedAt" (JStr now)
                         (obj_set "content"
                            (content_to_json (content_patch contentRequest))
                            (own_entries existing));
                     u_metadata := None;
                     u_ttl := None |})
  end.

(** The [catch] block of PUT: the body read as a full update. *)
Definition full_update (body : json) : M Update :=
  fullRequest ← lift (parse UpdateDeviceRequestSchema body);
  mergedData ←
    try_catch
      (existingData ← values_get (key fullRequest);
       match existingData with
       | Some existingText =>
           existing ← lift (JSON_parse env existingText);
           stored ← lift (read "createdAt" existing);
           created ← or_else stored (now ← Date_now; mret (JStr now));
           now ← Date_now;
           mret (obj_set "updatedAt" (JStr now)
                   (obj_set "createdAt" created
                      (device_fields (value fullRequest))))
       | None => mret (device_fields (value fullRequest))
       end)
      (fun _ => mret (device_fields (value fullRequest)));
  mret {| u_key := key fullRequest;
          u_data := mergedData;
          u_metadata := metadata fullRequest;
          u_ttl := ttl fullRequest |}.

(** The arguments of the [fetch] of PUT.  [normalizedDevice.content] is
    truthy where they are evaluated. *)
Definition notify_request (normalizedDevice : list (string * json)) : FetchCall :=
  let c := default JNull (assoc "content" normalizedDevice) in
  let notifyPayload :=
    obj_lit [("deviceId", assoc "deviceId" normalizedDevice);
             ("title", member "title" c);
             ("message", member "message" c);
             ("signature", Some (value_or (member "signature" c) (JStr "")));
             ("link", Some (value_or (member "link" c) (JStr "")))] in
  {| url := "https://dot.mindreset.tech/api/open/text";
     method := "POST";
     headers :=
       [("Authorization",
         "Bearer " ++ template (assoc "ownerKey" normalizedDevice));
        ("Content-Type", "application/json")];
     body := JSON_stringify env (JObj notifyPayload) |}.

(** The downstream call of PUT, the body of its inner [try]: the answer is
    only logged. *)
Definition notify (normalizedDevice : list (string * json)) : M unit :=
  notifyResponse ← do_fetch (notify_request normalizedDevice);
  mret tt.

(** The first half of PUT: the content update is tried first, and whatever
    it throws sends the body to the full update. *)
Definition prepare_update (body : json) : M (Response + Update) :=
  try_catch (content_update body)
    (fun _ => u ← full_update body; mret (inr u)).

Definition PUT (request_json : outcome json) : M Response :=
  try_catch
    (body ← lift request_json;
     step ← prepare_update body;
     match step with
     | inl response => mret response
     | inr u =>
         normalizedDevice ← normalizeDeviceData (u_data u);
         values_update (u_key u) (JSON_stringify env (JObj normalizedDevice))
           (u_metadata u) (u_ttl u);;
         (if truthy (assoc "content" normalizedDevice)
          then try_catch (notify normalizedDevice) (fun _ => mret tt)
          else mret tt);;
         createSuccessResponse
           [("message", JStr "设备更新成功");
            ("key", JStr (u_key u));
            ("device", JObj normalizedDevice)]
           "device_updated"
     end)
    (fun error => mret (handleError error "更新设备")).

(** One turn of the loop of the bulk branch of DELETE. *)
Definition visit_delete (o k : string) (deletedKeys : list string)
    (item : string) : M (list string) :=
  try_catch
    (result ← values_get item;
     match result with
     | Some resultText =>
         if negb (is_empty resultText) then
           deviceData ← lift (JSON_parse env resultText);
           try_catch
             (validatedDevice ← lift (validateDevice deviceData);
              if String.eqb (owner validatedDevice) o
                 && String.eqb (ownerKey validatedDevice) k
              then values_delete item;; mret (deletedKeys ++ [item])%list
              else mret deletedKeys)
             (fun _ => mret deletedKeys)
         else mret deletedKeys
     | None => mret deletedKeys
     end)
    (fun _ => mret deletedKeys).

Definition DELETE (q : Query) : M Response :=
  try_catch
    (let deleteAll :=
       match q_deleteAll q with Some s => String.eqb s "true" | None => false end in
     if deleteAll && given (q_owner q) && given (q_ownerKey q) then
       keysList ← keys_list;
       deletedKeys ← for_of (visit_delete (param (q_owner q))
                                (param (q_ownerKey q))) keysList [];
       createSuccessResponse
         [("message",
           JStr ("成功删除用户 " ++ param (q_owner q) ++ " 的 "
                 ++ string_of_nat (length deletedKeys) ++ " 个设备"));
          ("deletedKeys", JArr (map JStr deletedKeys));
          ("owner", JStr (param (q_owner q)))]
         "bulk_delete_completed"
     else if negb (given (q_key q)) then
       mret (NextResponse_json [("error", JStr "缺少必需的参数: key")] 400)
     else
       missing ←
         try_catch
           (existingDevice ← values_get (param (q_key q));
            match existingDevice with
            | None => mret (Some no_device)
            | Some existingText =>
                if is_empty existingText then mret (Some no_device)
                else mret None
            end)
           (fun _ => mret (Some no_device));
       match missing with
       | Some response => mret response
       | None =>
           values_delete (param (q_key q));;
           createSuccessResponse
             [("message", JStr "设备删除成功");
              ("key", JStr (param (q_key q)))]
             "device_deleted"
       end)
    (fun error => mret (handleError error "删除设备")).

End Route.

(** ** A reference environment

    An executable [Env] on which the handlers can be run: a JSON reader and
    printer for the values above, the UTC pattern of [datetime()], a clock
    that advances by one second per reading, a service without faults and a
    downstream API that answers 200. *)

Module Reference.

Definition is_ws (c : ascii) : bool :=
  let n := nat_of_ascii c in
  ((n =? 32) || (n =? 9) || (n =? 10) || (n =? 13))%nat.

Fixpoint skip_ws (s : string) : string :=
  match s with
  | String c rest => if is_ws c then skip_ws rest else s
  | EmptyString => s
  end.

Definition strip (p s : string) : option string :=
  if String.prefix p s
  then Some (String.substring (String.length p) (String.length s - String.length p) s)
  else None.

Definition digit_val (c : ascii) : Z := Z.of_nat (nat_of_ascii c) - 48.

Fixpoint read_digits (s : string) (acc : Z) : Z * string :=
  match s with
  | String c rest =>
      if is_digit c then read_digits rest (10 * acc + digit_val c)%Z else (acc, s)
  | EmptyString => (acc, s)
  end.

(** An integer literal; a fraction or an exponent is refused. *)
Definition read_number (s : string) : option (Z * string) :=
  let '(neg, s1) := match s with
                    | String "-" rest => (true, rest)
                    | _ => (false, s)
                    end in
  match s1 with
  | String c rest =>
      if is_digit c then
        let '(n, s2) :=
          if Ascii.eqb c "0" then (0%Z, rest) else read_digits s1 0 in
        match s2 with
        | String "." _ | String "e" _ | String "E" _ => None
        | String d _ => if is_digit d then None
                        else Some (if neg then (- n)%Z else n, s2)
        | EmptyString => Some (if neg then (- n)%Z else n, s2)
        end
      else None
  | EmptyString => None
  end.

(** The quotation mark. *)
Definition dquote : ascii := ascii_of_nat 34.

(** The characters of a string literal after the opening quote; of the
    escapes, [\uXXXX] is refused. *)
Fixpoint read_string (s : string) (acc : string) : option (string * string) :=
  match s with
  | EmptyString => None
  | String "\" (String e rest) =>
      let put c := read_string rest (acc ++ String c EmptyString) in
      if Ascii.eqb e dquote then put dquote
      else if Ascii.eqb e "\" then put "\"%char
      else if Ascii.eqb e "/" then put "/"%char
      else if Ascii.eqb e "n" then put (ascii_of_nat 10)
      else if Ascii.eqb e "r" then put (ascii_of_nat 13)
      else if Ascii.eqb e "t" then put (ascii_of_nat 9)
      else if Ascii.eqb e "b" then put (ascii_of_nat 8)
      else if Ascii.eqb e "f" then put (ascii_of_nat 12)
      else None
  | String c rest =>
      if Ascii.eqb c dquote then Some (acc, rest)
      else if (nat_of_ascii c <? 32)%nat then None
      else read_string rest (acc ++ String c EmptyString)
  end.

Fixpoint read_value (fuel : nat) (s : string) : option (json * string) :=
  match fuel with
  | O => None
  | S fuel' =>
      let s := skip_ws s in
      match s with
      | String "[" rest =>
          match skip_ws rest with
          | String "]" r => Some (JArr [], r)
          | _ => read_items fuel' rest []
          end
      | String "{" rest =>
          match skip_ws rest with
          | String "}" r => Some (JObj [], r)
          | _ => read_members fuel' rest []
          end
      | String c rest =>
          if Ascii.eqb c dquote then
            '(str, r) ← read_string rest ""; Some (JStr str, r)
          else
            match strip "null" s, strip "true" s, strip "false" s with
            | Some r, _, _ => Some (JNull, r)
            | _, Some r, _ => Some (JBool true, r)
            | _, _, Some r => Some (JBool false, r)
            | _, _, _ => '(n, r) ← read_number s; Some (JNum n, r)
            end
      | EmptyString => None
      end
  end
with read_items (fuel : nat) (s : string) (acc : list json)
  : option (json * string) :=
  match fuel with
  | O => None
  | S fuel' =>
      '(v, r) ← read_value fuel' s;
      match skip_ws r with
      | String "," r' => read_items fuel' r' (acc ++ [v])%list
      | String "]" r' => Some (JArr (acc ++ [v])%list, r')
      | _ => None
      end
  end
with read_members (fuel : nat) (s : string) (acc : list (string * json))
  : option (json * string) :=
  match fuel with
  | O => None
  | S fuel' =>
      match skip_ws s with
      | String c rest =>
          if Ascii.eqb c dquote then
            '(k, r) ← read_string rest "";
            match skip_ws r with
            | String ":" r1 =>
                '(v, r2) ← read_value fuel' r1;
                match skip_ws r2 with
                | String "," r3 => read_members fuel' r3 (obj_set k v acc)
                | String "}" r3 => Some (JObj (obj_set k v acc), r3)
                | _ => None
                end
            | _ => None
            end
          else None
      | EmptyString => None
      end
  end.

Definition read_json (text : string) : outcome json :=
  match read_value (S (String.length text)) text with
  | Some (v, rest) =>
      if is_empty (skip_ws rest) then Returns v
      else Throws (JsError "Unexpected non-whitespace character after JSON")
  | None =>
      if is_empty (skip_ws text)
      then Throws (JsError "Unexpected end of JSON input")
      else Throws (JsError "Unexpected token in JSON")
  end.

Definition hex_digit (n : nat) : ascii :=
  ascii_of_nat (if (n <? 10)%nat then 48 + n else 87 + n).

Fixpoint quote_chars (s : string) : string :=
  match s with
  | EmptyString => ""
  | String c rest =>
      let n := nat_of_ascii c in
      (if Ascii.eqb c dquote then String "\" (String dquote EmptyString)
       else if Ascii.eqb c "\" then "\\"
       else if (n =? 10)%nat then "\n"
       else if (n =? 13)%nat then "\r"
       else if (n =? 9)%nat then "\t"
       else if (n =? 8)%nat then "\b"
       else if (n =? 12)%nat then "\f"
       else if (n <? 32)%nat
            then "\u00" ++ String (hex_digit (n / 16))
                             (String (hex_digit (n mod 16)) EmptyString)
       else String c EmptyString)
      ++ quote_chars rest
  end.

Definition quote (s : string) : string :=
  String dquote (quote_chars s ++ String dquote EmptyString).

Fixpoint print_json (v : json) : string :=
  match v with
  | JNull => "null"
  | JBool true => "true"
  | JBool false => "false"
  | JNum n => string_of_Z n
  | JStr s => quote s
  | JArr l => "[" ++ join_with "," (map print_json l) ++ "]"
  | JObj fs =>
      "{" ++ join_with ","
               (map (fun kv : string * json =>
                       let '(k, x) := kv in quote k ++ ":" ++ print_json x)
                    fs)
          ++ "}"
  end.

(** [YYYY-MM-DDTHH:MM:SS], an optional fraction, then [Z]. *)
Definition utc_datetime (s : string) : bool :=
  let shape (c p : ascii) : bool :=
    if Ascii.eqb p "d" then is_digit c else Ascii.eqb c p in
  let fix go (s pat : string) : option string :=
    match pat, s with
    | EmptyString, _ => Some s
    | String p pat', String c s' => if shape c p then go s' pat' else None
    | String _ _, EmptyString => None
    end in
  match go s "dddd-dd-ddTdd:dd:dd" with
  | Some (String "Z" EmptyString) => true
  | Some (String "." (String c frac)) =>
      is_digit c &&
      match String.index 0 "Z" frac with
      | Some i => (S i =? String.length frac)%nat
                  && all_chars is_digit (String.substring 0 i frac)
      | None => false
      end
  | _ => false
  end.

Definition two_digits (n : nat) : string :=
  (if (n <? 10)%nat then "0" else "") ++ string_of_nat n.

Definition seconds_clock (i : nat) : string :=
  "2025-06-01T12:" ++ two_digits ((i / 60) mod 60) ++ ":"
  ++ two_digits (i mod 60) ++ ".000Z".

Definition fetch_ok (call : FetchCall) : outcome FetchResponse :=
  Returns {| fr_status := 200; fr_ok := true; fr_statusText := "OK" |}.

Definition env : Env := {|
  JSON_parse := read_json;
  JSON_stringify := print_json;
  isDatetime := utc_datetime;
  clock := seconds_clock;
  keys_fault := None;
  get_fault := fun _ => None;
  put_fault := fun _ => None;
  delete_fault := fun _ => None;
  fetch := fetch_ok
|}.

Definition empty_world : World := {| kv := ∅; ticks := 0; outbox := [] |}.

(** *** Sample data *)

Definition alice_key : string :=
  "dot_app_0123456789abcdefghijklmnopqrstuvwxyzABCDEFGHIJKLMNOPQRSTUVWXYZ01".
Definition bob_key : string :=
  "dot_app_ABCDEFGHIJKLMNOPQRSTUVWXYZ0123456789abcdefghijklmnopqrstuvwxyz99".

Definition a_device (o k id nm : string) (c : DeviceContent)
    (stamp : option string) : Device :=
  {| owner := o; ownerKey := k; deviceId := id; name := nm; content := c;
     createdAt := stamp; updatedAt := stamp |}.

Definition no_content : DeviceContent :=
  {| title := None; message := None; signature := None; link := None |}.

Definition hi : DeviceContent :=
  {| title := Some "hi"; message := None; signature := None; link := None |}.

Definition in_2024 : option string := Some "2024-02-03T04:05:06.000Z".

Definition desk : Device :=
  a_device "alice" alice_key "AABBCCDDEEFF" "Desk" hi in_2024.
Definition door : Device :=
  a_device "bob" bob_key "00000000000B" "Door" no_content in_2024.
(** The owner of [desk] with the credential of [door]. *)
Definition attic : Device :=
  a_device "alice" bob_key "00000000000C" "Attic" no_content in_2024.
(** A Device without timestamps: the schema makes both optional. *)
Definition porch : Device :=
  a_device "alice" alice_key "00000000000D" "Porch" no_content None.

Definition entry_of (d : Device) : Entry :=
  {| entry_value := print_json (device_to_json d);
     entry_metadata := None; entry_ttl := None |}.

Definition raw_entry (text : string) : Entry :=
  {| entry_value := text; entry_metadata := None; entry_ttl := None |}.

(** Three devices and two values that are no device. *)
Definition house : World :=
  {| kv := <["AABBCCDDEEFF" := entry_of desk]>
           (<["00000000000B" := entry_of door]>
           (<["00000000000C" := entry_of attic]>
           (<["BROKEN" := raw_entry ("{" ++ quote "owner" ++ ":")]>
           (<["BLANK" := raw_entry ""]> ∅))));
     ticks := 0;
     outbox := [] |}.

Definition shelf : Device :=
  a_device "alice" alice_key "0123456789AB" "Shelf" no_content in_2024.

(** Three devices of alice, and two that do not match her pair. *)
Definition flat : World :=
  {| kv := <["AABBCCDDEEFF" := entry_of desk]>
           (<["0123456789AB" := entry_of shelf]>
           (<["00000000000D" := entry_of porch]>
           (<["00000000000B" := entry_of door]>
           (<["00000000000C" := entry_of attic]> ∅))));
     ticks := 0;
     outbox := [] |}.

(** The reference environment with a service that refuses to delete the
    key of [shelf]. *)
Definition env_keeping_shelf : Env :=
  {| JSON_parse := read_json;
     JSON_stringify := print_json;
     isDatetime := utc_datetime;
     clock := seconds_clock;
     keys_fault := None;
     get_fault := fun _ => None;
     put_fault := fun _ => None;
     delete_fault := fun item =>
       if String.eqb item "0123456789AB"
       then Some (JsError "500 Internal Server Error") else None;
     fetch := fetch_ok |}.


(** [desk] as a caller resends it, renamed and with timestamps of its own. *)
Definition desk_renamed : Device :=
  a_device "alice" alice_key "AABBCCDDEEFF" "Standing desk" hi
    (Some "2030-01-01T00:00:00.000Z").

(** The body [{ key, value }] of a create or a full update. *)
Definition request_body (k : string) (d : Device) : json :=
  JObj [("key", JStr k); ("value", device_to_json d)].

Definition request_of (k : string) (d : Device) : CreateDeviceRequest :=
  {| key := k; value := d; metadata := None; ttl := None |}.

(** The body [{ key, content }] of a content update. *)
Definition content_body (k : string) (c : DeviceContent) : json :=
  JObj [("key", JStr k); ("content", content_to_json c)].

(** What the first half of PUT makes of [content_body "AABBCCDDEEFF"
    no_content] in [house]. *)
Definition desk_cleared : Update :=
  {| u_key := "AABBCCDDEEFF";
     u_data :=
       obj_set "updatedAt" (JStr (seconds_clock 0))
         (obj_set "content" (content_to_json no_content) (device_fields desk));
     u_metadata := None;
     u_ttl := None |}.

End Reference.

(** ** The rest of schemas.ts *)

(** [validateDeviceContent] *)
Definition validateDeviceContent (data : json) : outcome DeviceContent :=
  parse DeviceContentSchema data.

Record QueryDevicesByOwner := {
  query_owner : string;     (* owner *)
  query_ownerKey : string   (* ownerKey *)
}.

Definition QueryDevicesByOwnerSchema
  : list string -> option json -> zres QueryDevicesByOwner :=
  z_object (fun p fs =>
    inr Build_QueryDevicesByOwner
    <*> field (z_string [z_min 1 "拥有者不能为空"]) p fs "owner"
    <*> field (z_string [z_regex re_ownerKey "API密钥格式不正确"]) p fs "ownerKey").

(** What [getDevicesServerSide] resolves to: [{ devices, error? }]. *)
Record ServerSideDevices := {
  ss_devices : list Device;
  ss_error : option string
}.

Section ServerSide.

Context (env : Env).

(** The [message] getter of a ZodError, which Zod computes from fields of
    its issues that [ZodIssue] does not keep. *)
Context (zod_message : list ZodIssue -> string).

(** [error.message] when [error instanceof Error]. *)
Definition error_message (e : Exn) : option string :=
  match e with
  | ZodError errors => Some (zod_message errors)
  | JsError msg => Some msg
  | NotAnError => None
  end.

(** [getDevicesServerSide]; [window_defined] is [typeof window !==
    "undefined"].  Its loop is, word for word, the loop of the list-all
    branch of GET. *)
Definition getDevicesServerSide (window_defined : bool) : M ServerSideDevices :=
  try_catch
    ((if window_defined
      then throw (JsError "This function should only be called on the server side")
      else mret tt);;
     keysList ← keys_list env;
     devices ← for_of (visit_any env) keysList [];
     mret {| ss_devices := devices; ss_error := None |})
    (fun error =>
       mret {| ss_devices := [];
               ss_error := Some (default "获取设备数据失败"
                                   (error_message error)) |}).

End ServerSide.

(** The reference environment with a service whose every read throws an
    Error of the given message. *)
Definition env_unreadable_with (base : Env) (msg : string) : Env :=
  {| JSON_parse := JSON_parse base;
     JSON_stringify := JSON_stringify base;
     isDatetime := isDatetime base;
     clock := clock base;
     keys_fault := keys_fault base;
     get_fault := fun _ => Some (JsError msg);
     put_fault := put_fault base;
     delete_fault := delete_fault base;
     fetch := fetch base |}.

(** An environment whose read of a key that [w] does not hold throws an
    Error of the given message, as the client of the namespace does when
    the service answers that the key is not found: route.ts catches it in
    POST and in DELETE as a device that does not exist, and looks for
    "not found" in its message in GET.  The read of a key that [w] holds is
    that of [base]. *)
Definition env_throwing_on_missing (base : Env) (w : World) (msg : string)
  : Env :=
  {| JSON_parse := JSON_parse base;
     JSON_stringify := JSON_stringify base;
     isDatetime := isDatetime base;
     clock := clock base;
     keys_fault := keys_fault base;
     get_fault := fun name =>
       match kv w !! name with
       | Some _ => get_fault base name
       | None => Some (JsError msg)
       end;
     put_fault := put_fault base;
     delete_fault := delete_fault base;
     fetch := fetch base |}.

(** ** Reading the namespace

    What the scans of route.ts make of one key, as a function of the
    namespace: the validated device, when the read goes through, the text
    is not empty, [JSON.parse] accepts it and [DeviceSchema] validates the
    result. *)

Definition valid_record (env : Env) (w : World) (item : string) : option Device :=
  match get_fault env item with
  | Some _ => None
  | None =>
      match kv w !! item with
      | None => None
      | Some e =>
          if is_empty (entry_value e) then None
          else
            match JSON_parse env (entry_value e) with
            | Throws _ => None
            | Returns deviceData =>
                match validateDevice env deviceData with
                | Returns d => Some d
                | Throws _ => None
                end
            end
      end
  end.

(** The keys the service lists. *)
Definition listing (w : World) : list string := (map_to_list (kv w)).*1.

(** The valid devices of the namespace, in listing order. *)
Definition valid_devices (env : Env) (w : World) : list Device :=
  omap (valid_record env w) (listing w).

(** A key that is stored but does not yield a device: unreadable, empty,
    not JSON, or not a Device. *)
Definition malformed (env : Env) (w : World) (item : string) : Prop :=
  is_Some (kv w !! item) ∧ valid_record env w item = None.

Definition no_query : Query :=
  {| q_key := None; q_owner := None; q_ownerKey := None; q_deleteAll := None |}.

Definition by_key (k : string) : Query :=
  {| q_key := Some k; q_owner := None; q_ownerKey := None; q_deleteAll := None |}.

Definition by_owner (o k : string) : Query :=
  {| q_key := None; q_owner := Some o; q_ownerKey := Some k;
     q_deleteAll := None |}.

(** An error envelope [{ error, details? }] with an error status. *)
Definition is_error_response (r : Response) : Prop :=
  (status r = 400 ∨ status r = 404 ∨ status r = 500) ∧
  ∃ msg rest, payload r = JObj (("error", JStr msg) :: rest).

Definition all_devices_response (devices : list Device) (timestamp : string)
  : Response :=
  success_envelope
    [("devices", devices_json devices); ("count", count_json devices)]
    "all_devices" timestamp.

Definition devices_by_owner_response (o : string) (devices : list Device)
    (timestamp : string) : Response :=
  success_envelope
    [("owner", JStr o); ("devices", devices_json devices);
     ("count", count_json devices)]
    "devices_by_owner" timestamp.

(** ** Writing the namespace *)

Definition conflict_response : Response :=
  NextResponse_json [("error", JStr "设备已存在，请使用PUT方法更新")] 409.


(** The key is absent, or holds the empty text. *)
Definition absent_or_empty (w : World) (k : string) : Prop :=
  kv w !! k = None ∨ entry_value <$> kv w !! k = Some "".

(** The world after [n] more readings of the clock. *)
Definition ticks_by (n : nat) (w : World) : World :=
  {| kv := kv w; ticks := n + ticks w; outbox := outbox w |}.

(** The entry that a write of [record] with the options of a request
    leaves under its key. *)
Definition entry_for (env : Env) (record : list (string * json))
    (md : option json) (expiration_ttl : option Z) : Entry :=
  {| entry_value := JSON_stringify env (JObj record);
     entry_metadata := md;
     entry_ttl := expiration_ttl |}.

Definition device_created_response (k : string) (record : list (string * json))
    (timestamp : string) : Response :=
  success_envelope
    [("message", JStr "设备创建成功"); ("key", JStr k); ("device", JObj record)]
    "device_created" timestamp.

Definition device_updated_response (k : string) (record : list (string * json))
    (timestamp : string) : Response :=
  success_envelope
    [("message", JStr "设备更新成功"); ("key", JStr k); ("device", JObj record)]
    "device_updated" timestamp.

(** Two objects with the same properties apart from the two timestamps. *)
Definition same_but_stamps (a b : list (string * json)) : Prop :=
  ∀ k, k ≠ "createdAt" → k ≠ "updatedAt" → assoc k a = assoc k b.

(** The body is a full update: the content schema refuses it and the full
    schema reads [req] from it. *)
Definition full_update_request (env : Env) (body : json)
    (req : UpdateDeviceRequest) : Prop :=
  (∃ e, parse UpdateDeviceContentRequestSchema body = Throws e)
  ∧ parse (UpdateDeviceRequestSchema env) body = Returns req.

(** The pre-check of POST finds a text that is not empty. *)
Definition precheck_finds (env : Env) (w : World) (k : string) : bool :=
  match get_fault env k with
  | Some _ => false
  | None =>
      match kv w !! k with
      | Some e => negb (is_empty (entry_value e))
      | None => false
      end
  end.

(** The world after a write under [k] and [n] readings of the clock, with
    [calls] sent downstream. *)
Definition written (w : World) (k : string) (e : Entry) (n : nat)
    (calls : list FetchCall) : World :=
  {| kv := <[k := e]> (kv w);
     ticks := n + ticks w;
     outbox := (outbox w ++ calls)%list |}.

(** The same environment with another downstream API. *)
Definition with_fetch (env : Env) (f : FetchCall -> outcome FetchResponse)
  : Env :=
  {| JSON_parse := JSON_parse env;
     JSON_stringify := JSON_stringify env;
     isDatetime := isDatetime env;
     clock := clock env;
     keys_fault := keys_fault env;
     get_fault := get_fault env;
     put_fault := put_fault env;
     delete_fault := delete_fault env;
     fetch := f |}.

(** A downstream API that is unreachable, and one that answers 500. *)
Definition fetch_unreachable (call : FetchCall) : outcome FetchResponse :=
  Throws (JsError "fetch failed").

Definition fetch_refused (call : FetchCall) : outcome FetchResponse :=
  Returns {| fr_status := 500; fr_ok := false;
             fr_statusText := "Internal Server Error" |}.

(** ** Bulk delete *)

(** The key yields a device of the owner pair. *)
Definition owned_by (env : Env) (w : World) (o k : string) (item : string)
  : bool :=
  match valid_record env w item with
  | Some d => String.eqb (owner d) o && String.eqb (ownerKey d) k
  | None => false
  end.

(** The key yields a device of the owner pair and its delete goes through. *)
Definition deletable (env : Env) (w : World) (o k : string) (item : string)
  : bool :=
  owned_by env w o k item
  && match delete_fault env item with None => true | Some _ => false end.

Definition bulk_delete_query (o k : string) : Query :=
  {| q_key := None; q_owner := Some o; q_ownerKey := Some k;
     q_deleteAll := Some "true" |}.

Definition bulk_delete_response (o : string) (deletedKeys : list string)
    (timestamp : string) : Response :=
  success_envelope
    [("message",
      JStr ("成功删除用户 " ++ o ++ " 的 "
            ++ string_of_nat (length deletedKeys) ++ " 个设备"));
     ("deletedKeys", JArr (map JStr deletedKeys));
     ("owner", JStr o)]
    "bulk_delete_completed" timestamp.

(** The world after the deletes of [items], in order. *)
Definition without (items : list string) (w : World) : World :=
  {| kv := fold_left (fun m item => delete item m) items (kv w);
     ticks := ticks w;
     outbox := outbox w |}.

(** ** What the schemas accept *)

Definition at_most (n : nat) (s : option string) : bool :=
  match s with Some x => (String.length x <=? n)%nat | None => true end.

(** The bounds of [DeviceContentSchema]. *)
Definition content_ok (c : DeviceContent) : bool :=
  at_most 100 (title c) && at_most 500 (message c) && at_most 50 (signature c).

Definition datetime_or_absent (env : Env) (s : option string) : bool :=
  match s with Some x => isDatetime env x | None => true end.

(** The bounds of [DeviceSchema]. *)
Definition device_ok (env : Env) (d : Device) : bool :=
  (1 <=? String.length (owner d))%nat && (String.length (owner d) <=? 30)%nat
  && re_ownerKey (ownerKey d)
  && re_deviceId (deviceId d)
  && (1 <=? String.length (name d))%nat && (String.length (name d) <=? 50)%nat
  && content_ok (content d)
  && datetime_or_absent env (createdAt d)
  && datetime_or_absent env (updatedAt d).

(** The device that [normalizeDeviceData] makes of [d] at [now]. *)
Definition normalized_device (d : Device) (now : string) : Device :=
  {| owner := owner d; ownerKey := ownerKey d; deviceId := deviceId d;
     name := name d; content := content d;
     createdAt := Some match createdAt d with
                       | Some c => if is_empty c then now else c
                       | None => now
                       end;
     updatedAt := Some now |}.

(** ** What a computation leaves alone *)

(** Every run of [m] relates the world before to the world after by [R],
    whether it returns or throws. *)
Definition keeps {A} (R : World -> World -> Prop) (m : M A) : Prop :=
  ∀ w r w', m w = (r, w') → R w w'.

(** Nothing written, nothing sent. *)
Definition same_store (w w' : World) : Prop :=
  kv w' = kv w ∧ outbox w' = outbox w.

(** Nothing sent. *)
Definition same_outbox (w w' : World) : Prop := outbox w' = outbox w.

(** ** More responses *)

Definition device_details_response (k : string) (d : Device)
    (timestamp : string) : Response :=
  success_envelope [("key", JStr k); ("device", device_to_json d)]
    "device_details" timestamp.

Definition device_deleted_response (k : string) (timestamp : string)
  : Response :=
  success_envelope [("message", JStr "设备删除成功"); ("key", JStr k)]
    "device_deleted" timestamp.

Definition missing_key_response : Response :=
  NextResponse_json [("error", JStr "缺少必需的参数: key")] 400.

(** The condition [deleteAll && owner && ownerKey] of DELETE. *)
Definition bulk_requested (q : Query) : bool :=
  match q_deleteAll q with Some s => String.eqb s "true" | None => false end
  && given (q_owner q) && given (q_ownerKey q).

(** The key holds a text that is not empty and that the read returns. *)
Definition readable_text (env : Env) (w : World) (k : string) : option string :=
  match get_fault env k with
  | Some _ => None
  | None =>
      match kv w !! k with
      | Some e => if is_empty (entry_value e) then None else Some (entry_value e)
      | None => None
      end
  end.

(** A device whose name is longer than the schema allows. *)
Definition long_name : string :=
  "a name of more than fifty characters is too long for a device".

(** The body [{ key, content }] that carries a content request and nothing
    else. *)
Definition content_only_body (creq : UpdateDeviceContentRequest) : json :=
  JObj [("key", JStr (content_key creq));
        ("content", content_to_json (content_patch creq))].

(** The record that a content update makes of the stored value at the two
    clock readings [t1] and [t2]. *)
Definition patched (existing : json) (patch : DeviceContent) (t1 t2 : string)
  : list (string * json) :=
  stamped (obj_set "updatedAt" (JStr t1)
             (obj_set "content" (content_to_json patch) (own_entries existing)))
    t2.

(** The object [{ owner, ownerKey }] of an owner query. *)
Definition owner_pair (o k : string) : json :=
  JObj [("owner", JStr o); ("ownerKey", JStr k)].

(** ** Properties *)

(** Unfolds the monadic plumbing. *)
Ltac run :=
  unfold mbind, M_bind, mret, M_ret, try_catch, lift, throw in *; simpl in *.

Section Scans.

Context (env : Env).

Lemma visit_any_run devices item w :
  visit_any env devices item w =
  (Returns (devices ++ option_list (valid_record env w item))%list, w).
Proof.
  unfold visit_any, values_get, valid_record. run.
  destruct (get_fault env item); run; [by rewrite app_nil_r|].
  destruct (kv w !! item) as [e|]; run; [|by rewrite app_nil_r].
  destruct (is_empty (entry_value e)); run; [by rewrite app_nil_r|].
  destruct (JSON_parse env (entry_value e)); run; [|by rewrite app_nil_r].
  destruct (validateDevice env a); run; [done|by rewrite app_nil_r].
Qed.

Lemma visit_owned_run o k devices item w :
  visit_owned env o k devices item w =
  (Returns (devices ++ List.filter (fun d => validateDeviceOwnership d o k)
                         (option_list (valid_record env w item)))%list, w).
Proof.
  unfold visit_owned, values_get, valid_record, validateDeviceOwnership. run.
  destruct (get_fault env item); run; [by rewrite app_nil_r|].
  destruct (kv w !! item) as [e|]; run; [|by rewrite app_nil_r].
  destruct (is_empty (entry_value e)); run; [by rewrite app_nil_r|].
  destruct (JSON_parse env (entry_value e)); run; [|by rewrite app_nil_r].
  destruct (validateDevice env a) as [d|]; run; [|by rewrite app_nil_r].
  destruct (String.eqb (owner d) o && String.eqb (ownerKey d) k); run;
    [done|by rewrite app_nil_r].
Qed.

Lemma for_of_visit_any items : ∀ acc w,
  for_of (visit_any env) items acc w =
  (Returns (acc ++ omap (valid_record env w) items)%list, w).
Proof.
  induction items as [|item rest IH]; intros acc w; simpl.
  - by rewrite app_nil_r.
  - run. rewrite visit_any_run, IH.
    destruct (valid_record env w item); simpl; by rewrite <- app_assoc.
Qed.

Lemma for_of_visit_owned o k items : ∀ acc w,
  for_of (visit_owned env o k) items acc w =
  (Returns (acc ++ List.filter (fun d => validateDeviceOwnership d o k)
                     (omap (valid_record env w) items))%list, w).
Proof.
  induction items as [|item rest IH]; intros acc w; simpl.
  - by rewrite app_nil_r.
  - run. rewrite visit_owned_run, IH.
    destruct (valid_record env w item) as [d|]; simpl; [|by rewrite app_nil_r].
    destruct (validateDeviceOwnership d o k); simpl;
      by rewrite <- app_assoc.
Qed.

End Scans.

Section Listing.

Context (env : Env).

Lemma keys_list_run w :
  keys_fault env = None → keys_list env w = (Returns (listing w), w).
Proof. intros H. unfold keys_list. by rewrite H. Qed.

Lemma createSuccessResponse_run data type w :
  createSuccessResponse env data type w =
  (Returns (success_envelope data type (clock env (ticks w))), tick w).
Proof. reflexivity. Qed.

(** The list-all branch. *)
Lemma GET_all_run q w :
  keys_fault env = None →
  given (q_owner q) && given (q_ownerKey q) = false →
  given (q_key q) = false →
  GET env q w =
  (Returns (all_devices_response (valid_devices env w) (clock env (ticks w))),
   tick w).
Proof.
  intros Hk Ho Hkey. unfold GET. rewrite Ho, Hkey. run.
  rewrite (keys_list_run w Hk), for_of_visit_any. reflexivity.
Qed.

(** The owner branch. *)
Lemma GET_owned_run q w :
  keys_fault env = None →
  given (q_owner q) && given (q_ownerKey q) = true →
  GET env q w =
  (Returns (devices_by_owner_response (param (q_owner q))
              (List.filter
                 (fun d => validateDeviceOwnership d (param (q_owner q))
                             (param (q_ownerKey q)))
                 (valid_devices env w))
              (clock env (ticks w))),
   tick w).
Proof.
  intros Hk Ho. unfold GET. rewrite Ho. run.
  rewrite (keys_list_run w Hk), for_of_visit_owned. reflexivity.
Qed.

Lemma handleError_is_error e op : is_error_response (handleError e op).
Proof.
  destruct e; (split; [simpl; tauto | simpl; eauto]).
Qed.

Lemma not_found_is_error : is_error_response not_found_device.
Proof. split; [simpl; tauto | simpl; eauto]. Qed.

Lemma length_valid_devices w :
  length (valid_devices env w) =
  size (filter (fun kv : string * Entry => is_Some (valid_record env w kv.1))
          (kv w)).
Proof.
  unfold valid_devices, listing.
  generalize (valid_record env w). intros f.
  induction (kv w) as [|i x m Hi Hfirst IH] using map_first_key_ind.
  - by rewrite map_to_list_empty, map_filter_empty, map_size_empty.
  - rewrite map_to_list_insert_first_key by done. simpl.
    destruct (f i) as [d|] eqn:Hf; simpl.
    + rewrite map_filter_insert_True by (simpl; rewrite Hf; eauto).
      rewrite map_size_insert_None; [f_equal; apply IH|].
      by rewrite map_lookup_filter_None_2; [|left].
    + rewrite map_filter_insert_False by (simpl; rewrite Hf; by intros [? ?]).
      rewrite delete_id by done. apply IH.
Qed.

End Listing.

(** *** Objects *)

Lemma assoc_obj_set_eq k v fs : assoc k (obj_set k v fs) = Some v.
Proof.
  induction fs as [|[k' v'] fs IH]; simpl.
  - by rewrite String.eqb_refl.
  - destruct (String.eqb k' k) eqn:E; simpl.
    + by rewrite String.eqb_refl.
    + by rewrite E.
Qed.

Lemma assoc_obj_set_ne k k' v fs :
  k ≠ k' → assoc k' (obj_set k v fs) = assoc k' fs.
Proof.
  intros Hne. induction fs as [|[k0 v0] fs IH]; simpl.
  - destruct (String.eqb k k') eqn:E; [|done].
    by apply String.eqb_eq in E.
  - destruct (String.eqb k0 k) eqn:E; simpl.
    + apply String.eqb_eq in E as ->.
      destruct (String.eqb k k') eqn:E'; [|done].
      by apply String.eqb_eq in E'.
    + by rewrite IH.
Qed.

Lemma stamped_createdAt raw now :
  assoc "createdAt" (stamped raw now)
  = Some (value_or (assoc "createdAt" raw) (JStr now)).
Proof.
  unfold stamped. rewrite assoc_obj_set_ne by done. apply assoc_obj_set_eq.
Qed.

Lemma stamped_updatedAt raw now :
  assoc "updatedAt" (stamped raw now) = Some (JStr now).
Proof. unfold stamped. apply assoc_obj_set_eq. Qed.

Lemma stamped_other raw now : same_but_stamps (stamped raw now) raw.
Proof.
  intros k Hc Hu. unfold stamped.
  rewrite !assoc_obj_set_ne; done.
Qed.

Lemma device_fields_content d :
  assoc "content" (device_fields d) = Some (content_to_json (content d)).
Proof. by destruct d as [? ? ? ? ? [?|] [?|]]. Qed.

Lemma device_fields_deviceId d :
  assoc "deviceId" (device_fields d) = Some (JStr (deviceId d)).
Proof. by destruct d as [? ? ? ? ? [?|] [?|]]. Qed.

Lemma device_fields_ownerKey d :
  assoc "ownerKey" (device_fields d) = Some (JStr (ownerKey d)).
Proof. by destruct d as [? ? ? ? ? [?|] [?|]]. Qed.

Lemma device_fields_createdAt d :
  assoc "createdAt" (device_fields d) = JStr <$> createdAt d.
Proof. by destruct d as [? ? ? ? ? [?|] [?|]]. Qed.

(** *** Schemas *)

Lemma zap_inr {A B} (f : zres (A → B)) (x : zres A) (b : B) :
  f <*> x = inr b → ∃ g a, f = inr g ∧ x = inr a ∧ b = g a.
Proof.
  destruct f as [i|g], x as [j|a]; simpl; intros H; try discriminate.
  injection H as <-. eauto.
Qed.

Lemma z_string_inr cs p v s :
  z_string cs p v = inr s → v = Some (JStr s) ∧ run_checks p cs s = [].
Proof.
  unfold z_string. destruct v as [[| | |s'| |]|]; try discriminate.
  destruct (run_checks p cs s') eqn:E; [|discriminate].
  intros H. injection H as <-. done.
Qed.

Lemma run_checks_cons p (c : check) cs s :
  run_checks p (c :: cs) s = [] → c.1 s = true ∧ run_checks p cs s = [].
Proof.
  unfold run_checks. simpl. destruct (c.1 s); [done|discriminate].
Qed.

Lemma z_min_1 msg s : (z_min 1 msg).1 s = true → s ≠ "".
Proof. by destruct s. Qed.

Section Schemas.

Context (env : Env).

Lemma DeviceSchema_inr p v d :
  DeviceSchema env p v = inr d →
  owner d ≠ "" ∧ re_ownerKey (ownerKey d) = true
  ∧ re_deviceId (deviceId d) = true.
Proof.
  unfold DeviceSchema, z_object.
  destruct v as [[| | | | |fs]|]; try discriminate. intros H.
  repeat (apply zap_inr in H as (? & ? & H & ? & ->)).
  injection H as <-. simpl.
  repeat match goal with
         | H : field (z_string _) _ _ _ = inr _ |- _ =>
             apply z_string_inr in H as [_ H]
         end.
  repeat match goal with
         | H : run_checks _ (_ :: _) _ = [] |- _ =>
             apply run_checks_cons in H as [? H]
         end.
  split; [|split].
  - match goal with H : (z_min 1 _).1 ?o = true |- ?o ≠ "" =>
      exact (z_min_1 _ _ H) end.
  - match goal with H : (z_regex re_ownerKey _).1 ?o = true |- _ ?o = true =>
      exact H end.
  - match goal with H : (z_regex re_deviceId _).1 ?o = true |- _ ?o = true =>
      exact H end.
Qed.

Lemma CreateDeviceRequestSchema_parse body req :
  parse (CreateDeviceRequestSchema env) body = Returns req →
  key req ≠ "" ∧ re_deviceId (deviceId (value req)) = true.
Proof.
  unfold parse.
  destruct (CreateDeviceRequestSchema env [] (Some body)) as [i|r] eqn:H;
    [discriminate|].
  intros E. injection E as <-.
  unfold CreateDeviceRequestSchema, z_object in H.
  destruct body as [| | | | |fs]; try discriminate.
  repeat (apply zap_inr in H as (? & ? & H & ? & ->)).
  injection H as <-. simpl.
  match goal with H : field (DeviceSchema env) _ _ _ = inr _ |- _ =>
    apply DeviceSchema_inr in H as (_ & _ & Hid) end.
  split; [|done].
  match goal with H : field (z_string _) _ _ "key" = inr _ |- _ =>
    apply z_string_inr in H as [_ H];
    apply run_checks_cons in H as [H _];
    exact (z_min_1 _ _ H) end.
Qed.

(** The issues of a property are among those of the object. *)
Lemma zap_inl_r {A B} (f : zres (A → B)) (j : list ZodIssue) :
  ∃ i, f <*> (inl j : zres A) = inl (i ++ j)%list.
Proof. destruct f as [i|g]; [by exists i | by exists []]. Qed.

Lemma zap_inl_l {A B} (i : list ZodIssue) (x : zres A) :
  ∃ j, (inl i : zres (A → B)) <*> x = inl (i ++ j)%list.
Proof.
  destruct x as [j|a]; [by exists j | exists []; simpl; by rewrite app_nil_r].
Qed.

(** An object without [value] is no full update: the schema reports the
    property as required. *)
Lemma UpdateDeviceRequestSchema_needs_value fs :
  assoc "value" fs = None →
  ∃ issues,
    parse (UpdateDeviceRequestSchema env) (JObj fs) = Throws (ZodError issues)
    ∧ {| issue_path := ["value"]; issue_message := "Required" |} ∈ issues.
Proof.
  intros Hvalue.
  unfold parse, UpdateDeviceRequestSchema, CreateDeviceRequestSchema, z_object.
  assert (field (DeviceSchema env) [] fs "value"
          = inl [{| issue_path := ["value"]; issue_message := "Required" |}])
    as -> by (unfold field; rewrite Hvalue; reflexivity).
  match goal with |- context [?f <*> inl ?j] =>
    destruct (zap_inl_r f j) as [i ->] end.
  match goal with |- context [inl ?a <*> ?x] =>
    destruct (zap_inl_l (B := option Z → CreateDeviceRequest) a x) as [j1 ->]
  end.
  match goal with |- context [inl ?a <*> ?x] =>
    destruct (zap_inl_l (B := CreateDeviceRequest) a x) as [j2 ->]
  end.
  eexists. split; [reflexivity|].
  rewrite !elem_of_app, list_elem_of_singleton. auto.
Qed.

End Schemas.

Section Writes.

Context (env : Env).

Lemma POST_run body req w :
  parse (CreateDeviceRequestSchema env) body = Returns req →
  POST env (Returns body) w =
  let record := stamped (device_fields (value req)) (clock env (ticks w)) in
  if precheck_finds env w (key req) then (Returns conflict_response, w)
  else
    match put_fault env (key req) with
    | Some e => (Returns (handleError e "创建设备"), tick w)
    | None =>
        (Returns (device_created_response (key req) record
                    (clock env (S (ticks w)))),
         written w (key req) (entry_for env record (metadata req) (ttl req))
           2 [])
    end.
Proof.
  intros H. destruct w as [m t o].
  unfold POST, precheck_finds, values_get, values_update, written. run.
  rewrite H. run.
  destruct (get_fault env (key req)); run.
  - destruct (put_fault env (key req)); run; [done|]. by rewrite app_nil_r.
  - destruct (m !! key req) as [e|]; run.
    + destruct (is_empty (entry_value e)); run; [|done].
      destruct (put_fault env (key req)); run; [done|]. by rewrite app_nil_r.
    + destruct (put_fault env (key req)); run; [done|]. by rewrite app_nil_r.
Qed.

Lemma prepare_update_full body w :
  (∃ e, parse UpdateDeviceContentRequestSchema body = Throws e) →
  prepare_update env body w =
  (u ← full_update env body; mret (inr u)) w.
Proof.
  intros [e H]. unfold prepare_update, content_update. run. by rewrite H.
Qed.

Lemma full_update_run body req w :
  parse (UpdateDeviceRequestSchema env) body = Returns req →
  ∃ data n,
    full_update env body w =
      (Returns {| u_key := key req; u_data := data;
                  u_metadata := metadata req; u_ttl := ttl req |},
       ticks_by n w)
    ∧ same_but_stamps data (device_fields (value req)).
Proof.
  intros H. destruct w as [m t o].
  unfold full_update, values_get, ticks_by. run. rewrite H. run.
  assert (∀ a b, same_but_stamps
            (obj_set "updatedAt" a (obj_set "createdAt" b
               (device_fields (value req))))
            (device_fields (value req))) as Hsame
    by (intros a b k ? ?; by rewrite !assoc_obj_set_ne).
  destruct (get_fault env (key req)); run;
    [by eexists _, 0; split; [reflexivity|intros k ? ?]|].
  destruct (m !! key req) as [e|]; run;
    [|by eexists _, 0; split; [reflexivity|intros k ? ?]].
  destruct (JSON_parse env (entry_value e)) as [existing|]; run;
    [|by eexists _, 0; split; [reflexivity|intros k ? ?]].
  destruct (read "createdAt" existing) as [stored|]; run;
    [|by eexists _, 0; split; [reflexivity|intros k ? ?]].
  unfold or_else. destruct stored as [x|].
  - destruct (truthy (Some x)); run;
      [eexists _, 1|eexists _, 2]; (split; [reflexivity|apply Hsame]).
  - run. eexists _, 2. split; [reflexivity|apply Hsame].
Qed.


Lemma PUT_commit body w u w1 :
  prepare_update env body w = (Returns (inr u), w1) →
  PUT env (Returns body) w =
  let record := stamped (u_data u) (clock env (ticks w1)) in
  match put_fault env (u_key u) with
  | Some e => (Returns (handleError e "更新设备"), tick w1)
  | None =>
      (Returns (device_updated_response (u_key u) record
                  (clock env (S (ticks w1)))),
       written w1 (u_key u)
         (entry_for env record (u_metadata u) (u_ttl u)) 2
         (if truthy (assoc "content" record)
          then [notify_request env record] else []))
  end.
Proof.
  intros H. unfold PUT. run. rewrite H. destruct w1 as [m t o].
  unfold values_update, written, notify, do_fetch. run.
  destruct (put_fault env (u_key u)); run; [done|].
  destruct (truthy (assoc "content" (stamped (u_data u) (clock env t)))); run.
  - by destruct (fetch env _).
  - by rewrite app_nil_r.
Qed.

Lemma PUT_early body w r w1 :
  prepare_update env body w = (Returns (inl r), w1) →
  PUT env (Returns body) w = (Returns r, w1).
Proof. intros H. unfold PUT. run. by rewrite H. Qed.

End Writes.

Section Deletes.

Context (env : Env).

Lemma visit_delete_run o k deletedKeys item w :
  visit_delete env o k deletedKeys item w =
  if deletable env w o k item
  then (Returns (deletedKeys ++ [item])%list, without [item] w)
  else (Returns deletedKeys, w).
Proof.
  unfold visit_delete, values_get, values_delete, deletable, owned_by,
    valid_record, without. run.
  destruct (get_fault env item); run; [done|].
  destruct (kv w !! item) as [e|]; run; [|done].
  destruct (is_empty (entry_value e)); run; [done|].
  destruct (JSON_parse env (entry_value e)); run; [|done].
  destruct (validateDevice env a) as [d|]; run; [|done].
  destruct (String.eqb (owner d) o && String.eqb (ownerKey d) k); run; [|done].
  destruct (delete_fault env item); run; done.
Qed.

Lemma valid_record_without item w x :
  x ≠ item → valid_record env (without [item] w) x = valid_record env w x.
Proof.
  intros Hne. unfold valid_record, without. simpl.
  by rewrite lookup_delete_ne.
Qed.

Lemma deletable_without item w o k x :
  x ≠ item → deletable env (without [item] w) o k x = deletable env w o k x.
Proof.
  intros Hne. unfold deletable, owned_by. by rewrite valid_record_without.
Qed.

Lemma without_app a b w : without (a ++ b) w = without b (without a w).
Proof. unfold without. simpl. by rewrite fold_left_app. Qed.

Lemma for_of_visit_delete o k items : ∀ acc w,
  NoDup items →
  for_of (visit_delete env o k) items acc w =
  (Returns (acc ++ List.filter (deletable env w o k) items)%list,
   without (List.filter (deletable env w o k) items) w).
Proof.
  induction items as [|item rest IH]; intros acc w Hnd; simpl.
  - rewrite app_nil_r. by destruct w.
  - apply NoDup_cons in Hnd as [Hnotin Hnd]. run.
    rewrite visit_delete_run.
    destruct (deletable env w o k item) eqn:Hdel.
    + rewrite IH by done.
      rewrite (List.filter_ext_in (deletable env (without [item] w) o k)
                 (deletable env w o k)).
      * by rewrite <- app_assoc.
      * intros x Hx. apply deletable_without. intros ->.
        by apply Hnotin, list_elem_of_In.
    + by rewrite IH.
Qed.

Lemma lookup_without items w x :
  kv (without items w) !! x = if bool_decide (x ∈ items) then None else kv w !! x.
Proof.
  revert w. induction items as [|item rest IH]; intros w.
  - done.
  - change (item :: rest) with ([item] ++ rest)%list.
    rewrite without_app, IH.
    destruct (decide (x = item)) as [->|Hne].
    + rewrite (bool_decide_eq_true_2 (item ∈ [item] ++ rest)%list)
        by apply list_elem_of_here.
      case_bool_decide; [done|]. simpl. apply lookup_delete_eq.
    + case_bool_decide as H1; case_bool_decide as H2; try done.
      * exfalso. apply H2. by apply list_elem_of_further.
      * exfalso. apply elem_of_cons in H2 as [->|]; done.
      * simpl. by apply lookup_delete_ne.
Qed.

End Deletes.

(** C3: with the listing available, the list-all request answers with
    exactly the devices of the keys whose value reads, parses and validates,
    as many as the namespace holds such keys; a stored key of any other
    kind (unreadable, empty, not JSON, not a Device) is left out and does
    not stop the scan, whereas the get-one request on such a key answers
    with an error envelope. *)
Theorem list_all_drops_malformed_get_one_reports (env : Env) (w : World) :
  keys_fault env = None →
  (∃ e, JSON_parse env "" = Throws e) →
  GET env no_query w =
    (Returns (all_devices_response (valid_devices env w) (clock env (ticks w))),
     tick w)
  ∧ length (valid_devices env w) =
    size (filter (fun kv : string * Entry => is_Some (valid_record env w kv.1))
            (kv w))
  ∧ (∀ d, d ∈ valid_devices env w ↔
          ∃ item, is_Some (kv w !! item) ∧ valid_record env w item = Some d)
  ∧ (∀ item, item ≠ "" → malformed env w item →
       ∃ resp, GET env (by_key item) w = (Returns resp, w)
               ∧ is_error_response resp).
Proof.
  intros Hkeys [e0 Hempty]. split; [by apply GET_all_run|].
  split; [apply length_valid_devices|]. split.
  - intros d. unfold valid_devices, listing. rewrite list_elem_of_omap.
    split; intros [item [H1 H2]]; exists item; split; try done.
    + apply list_elem_of_fmap in H1 as [[i x] [-> Hix]].
      apply elem_of_map_to_list in Hix. simpl. by rewrite Hix.
    + destruct H1 as [x Hx]. apply list_elem_of_fmap. exists (item, x).
      split; [done|]. by apply elem_of_map_to_list.
  - intros item Hne [[x Hx] Hbad].
    unfold valid_record in Hbad. rewrite Hx in Hbad.
    destruct item as [|c s]; [done|]. unfold GET, by_key; simpl.
    remember (String c s) as item eqn:Hitem. clear Hitem Hne.
    unfold values_get. run.
    destruct (get_fault env item) as [e|]; run.
    { destruct (is_not_found e); run; eexists; split; try done;
        [apply not_found_is_error | apply handleError_is_error]. }
    rewrite Hx. run.
    destruct (is_empty (entry_value x)) eqn:Hemp.
    { destruct (entry_value x); [|done]. rewrite Hempty. run.
      destruct (is_not_found e0); run; eexists; split; try done;
        [apply not_found_is_error | apply handleError_is_error]. }
    destruct (JSON_parse env (entry_value x)) as [j|e]; run.
    + destruct (validateDevice env j) as [d|e]; [done|]. run.
      destruct (is_not_found e); run; eexists; split; try done;
        [apply not_found_is_error | apply handleError_is_error].
    + destruct (is_not_found e); run; eexists; split; try done;
        [apply not_found_is_error | apply handleError_is_error].
Qed.

Lemma list_all_drops_malformed_get_one_reports_witness :
  GET Reference.env no_query Reference.house =
    (Returns (all_devices_response (valid_devices Reference.env Reference.house)
                (clock Reference.env 0)),
     tick Reference.house)
  ∧ length (valid_devices Reference.env Reference.house) = 3
  ∧ (∃ resp, GET Reference.env (by_key "BROKEN") Reference.house
             = (Returns resp, Reference.house) ∧ is_error_response resp)
  ∧ (∃ resp, GET Reference.env (by_key "BLANK") Reference.house
             = (Returns resp, Reference.house) ∧ is_error_response resp).
Proof.
  destruct (list_all_drops_malformed_get_one_reports Reference.env
              Reference.house) as (Hall & Hlen & _ & Hone).
  - reflexivity.
  - (eexists; vm_compute; reflexivity).
  - (split; [exact Hall|]). (split; [vm_compute; reflexivity|]).
    split. 
    + apply Hone. discriminate. split. (eexists; vm_compute; reflexivity). (vm_compute; reflexivity).
    + apply Hone. discriminate. split. (eexists; vm_compute; reflexivity). (vm_compute; reflexivity).
Defined.

(** C6: for every pair, the scan of the owner request collects the devices
    that the scan of the list-all request collects, filtered by [owner] and
    [ownerKey] both; for a supplied pair and an available listing, the
    devices of the owner request are so the devices of the list-all request
    with that filter, and a device that matches in one of the two only is
    not among them. *)
Theorem list_by_owner_filters_list_all (env : Env) (w : World) (o k : string) :
  let everything := valid_devices env w in
  let owned :=
    List.filter (fun d => String.eqb (owner d) o && String.eqb (ownerKey d) k)
      everything in
  for_of (visit_any env) (listing w) [] w = (Returns everything, w)
  ∧ for_of (visit_owned env o k) (listing w) [] w = (Returns owned, w)
  ∧ (keys_fault env = None →
     GET env no_query w =
       (Returns (all_devices_response everything (clock env (ticks w))), tick w))
  ∧ (keys_fault env = None → o ≠ "" → k ≠ "" →
     ∀ q, q_owner q = Some o → q_ownerKey q = Some k →
       GET env q w =
         (Returns (devices_by_owner_response o owned (clock env (ticks w))),
          tick w))
  ∧ (∀ d, d ∈ owned ↔ d ∈ everything ∧ owner d = o ∧ ownerKey d = k).
Proof.
  intros everything owned.
  split; [apply for_of_visit_any|]. split; [apply for_of_visit_owned|].
  split; [intros Hkeys; by apply GET_all_run|]. split.
  - intros Hkeys Hone Hkne q Ho Hk.
    rewrite GET_owned_run; [by rewrite Ho, Hk | done |].
    rewrite Ho, Hk. by destruct o, k.
  - intros d. unfold owned.
    rewrite list_elem_of_In, filter_In, <- list_elem_of_In.
    rewrite andb_true_iff, !String.eqb_eq. tauto.
Qed.

Lemma list_by_owner_filters_list_all_witness :
  ∃ everything,
    GET Reference.env no_query Reference.house =
      (Returns (all_devices_response everything "2025-06-01T12:00:00.000Z"),
       tick Reference.house)
    ∧ GET Reference.env (by_owner "alice" Reference.alice_key) Reference.house =
      (Returns (devices_by_owner_response "alice" [Reference.desk]
                  "2025-06-01T12:00:00.000Z"), tick Reference.house)
    ∧ Reference.attic ∈ everything
    ∧ Reference.door ∈ everything.
Proof.
  destruct (list_by_owner_filters_list_all Reference.env Reference.house
              "alice" Reference.alice_key)
    as (_ & _ & Hall & Hown & _).
  exists (valid_devices Reference.env Reference.house).
  split; [apply Hall; reflexivity|].
  split; [apply Hown; [reflexivity | discriminate | discriminate
                      | reflexivity | reflexivity]|].
  split; apply list_elem_of_In; vm_compute; tauto.
Defined.

(** C10: a GET request without a key that supplies one of [owner] and
    [ownerKey] but not the other is answered as the request without any
    parameter: the success envelope of all valid devices, unfiltered. *)
Theorem GET_half_pair_lists_all (env : Env) (w : World) (q : Query) :
  keys_fault env = None →
  given (q_key q) = false →
  given (q_owner q) ≠ given (q_ownerKey q) →
  GET env q w = GET env no_query w
  ∧ GET env q w =
    (Returns (all_devices_response (valid_devices env w) (clock env (ticks w))),
     tick w)
  ∧ status (all_devices_response (valid_devices env w) (clock env (ticks w)))
    = 200.
Proof.
  intros Hkeys Hkey Hhalf.
  assert (given (q_owner q) && given (q_ownerKey q) = false) as Hpair
    by (destruct (given (q_owner q)), (given (q_ownerKey q)); done).
  rewrite (GET_all_run env q w), (GET_all_run env no_query w); done.
Qed.

Lemma GET_half_pair_lists_all_witness :
  GET Reference.env
    {| q_key := None; q_owner := Some "alice"; q_ownerKey := None;
       q_deleteAll := None |} Reference.house
  = GET Reference.env no_query Reference.house.
Proof.
  apply (GET_half_pair_lists_all Reference.env Reference.house
           {| q_key := None; q_owner := Some "alice"; q_ownerKey := None;
              q_deleteAll := None |});
    [reflexivity | reflexivity | discriminate].
Defined.



(** The [try] block of PUT when the read resolves: a content update of a
    key whose read returns no result or the empty text is answered with the
    404 response, and the world, the namespace with it, is left as it
    was. *)
Remark content_update_when_read_finds_nothing (env : Env) (w : World)
    (body : json) (creq : UpdateDeviceContentRequest) :
  parse UpdateDeviceContentRequestSchema body = Returns creq →
  get_fault env (content_key creq) = None →
  absent_or_empty w (content_key creq) →
  PUT env (Returns body) w = (Returns no_device, w)
  ∧ status no_device = 404.
Proof.
  intros Hreq Hget Hmiss. split; [|done].
  apply PUT_early. unfold prepare_update, content_update, values_get. run.
  rewrite Hreq. run. rewrite Hget. run.
  destruct Hmiss as [->| ->]; reflexivity.
Qed.

(** A key that holds the empty text is read without a throw, also by a
    client that throws on a key that is not there: the 404 is the answer. *)
Example content_update_of_blank_key :
  PUT (env_throwing_on_missing Reference.env Reference.house "key not found")
    (Returns (Reference.content_body "BLANK" Reference.hi))
    Reference.house
  = (Returns no_device, Reference.house).
Proof.
  apply (content_update_when_read_finds_nothing
           (env_throwing_on_missing Reference.env Reference.house
              "key not found")
           Reference.house _
           {| content_key := "BLANK"; content_patch := Reference.hi |});
    [vm_compute; reflexivity | vm_compute; reflexivity
    | right; vm_compute; reflexivity].
Qed.

(** When the read of the key throws instead, the [catch] of PUT sends the
    body to the full update, whatever was thrown: the answer is what the
    full schema throws for the body, and the world is left as it was. *)
Remark content_update_when_read_throws (env : Env) (w : World) (body : json)
    (creq : UpdateDeviceContentRequest) (e e' : Exn) :
  parse UpdateDeviceContentRequestSchema body = Returns creq →
  get_fault env (content_key creq) = Some e →
  parse (UpdateDeviceRequestSchema env) body = Throws e' →
  PUT env (Returns body) w = (Returns (handleError e' "更新设备"), w).
Proof.
  intros Hreq Hget Hfull.
  unfold PUT, prepare_update, content_update, full_update, values_get. run.
  rewrite Hreq. run. rewrite Hget. run. by rewrite Hfull.
Qed.

(** C7, a defect of PUT: the content update of a key that is not in the
    namespace is not answered with 404.  The read of such a key throws, and
    the bare [catch] of PUT, written for a body that is no content update,
    catches that throw as well and reads the body as a full update.  A body
    with a key and a content and no [value] is refused by the full schema,
    so the answer is the 400 of a validation failure, with the issue
    Required at [value] among its details, in place of the 404 that the
    [try] block returns when the read finds nothing.  Nothing is written:
    the world is left as it was. *)
Theorem content_update_of_missing_key_answers_400 (env : Env) (w : World)
    (body : json) (creq : UpdateDeviceContentRequest) (e : Exn) :
  parse UpdateDeviceContentRequestSchema body = Returns creq →
  member "value" body = None →
  get_fault env (content_key creq) = Some e →
  ∃ issues,
    parse (UpdateDeviceRequestSchema env) body = Throws (ZodError issues)
    ∧ {| issue_path := ["value"]; issue_message := "Required" |} ∈ issues
    ∧ PUT env (Returns body) w
      = (Returns
           (NextResponse_json
              [("error", JStr "数据验证失败");
               ("details", JArr (map issue_to_json issues))] 400), w)
    ∧ PUT env (Returns body) w ≠ (Returns no_device, w).
Proof.
  intros Hreq Hvalue Hget.
  assert (∃ fs, body = JObj fs) as [fs ->].
  { destruct body as [| | | | |fs]; try discriminate. by exists fs. }
  destruct (UpdateDeviceRequestSchema_needs_value env fs Hvalue)
    as (issues & Hfull & Hin).
  exists issues. split; [exact Hfull|]. split; [exact Hin|].
  pose proof (content_update_when_read_throws env w (JObj fs) creq e
                (ZodError issues) Hreq Hget Hfull) as Hput.
  split; [exact Hput|]. rewrite Hput. discriminate.
Qed.

(** The content update of [house] for the key of [shelf], which [house]
    does not hold, by a client that throws on such a key. *)
Lemma content_update_of_missing_key_answers_400_witness :
  kv Reference.house !! "0123456789AB" = None
  ∧ PUT (env_throwing_on_missing Reference.env Reference.house
           "key not found")
      (Returns (Reference.content_body "0123456789AB" Reference.hi))
      Reference.house
    = (Returns
         (NextResponse_json
            [("error", JStr "数据验证失败");
             ("details",
              JArr [JObj [("path", JStr "value");
                          ("message", JStr "Required")]])] 400),
       Reference.house).
Proof.
  split; [vm_compute; reflexivity|].
  destruct (content_update_of_missing_key_answers_400
              (env_throwing_on_missing Reference.env Reference.house
                 "key not found")
              Reference.house
              (Reference.content_body "0123456789AB" Reference.hi)
              {| content_key := "0123456789AB";
                 content_patch := Reference.hi |}
              (JsError "key not found"))
    as (issues & Hfull & _ & Hput & _);
    [vm_compute; reflexivity | vm_compute; reflexivity
    | vm_compute; reflexivity |].
  vm_compute in Hfull. injection Hfull as <-. exact Hput.
Defined.

(** C5: once the first half of PUT has produced an update and the write
    under its key goes through, PUT answers with the success envelope of
    the written record, whatever the downstream API does: the same answer
    and the same namespace for every [fetch], one that throws and one that
    answers with an error status included. *)
Theorem update_succeeds_whatever_fetch_does (env : Env) (body : json)
    (w w1 : World) (u : Update) (f : FetchCall → outcome FetchResponse) :
  prepare_update env body w = (Returns (inr u), w1) →
  put_fault env (u_key u) = None →
  let record := stamped (u_data u) (clock env (ticks w1)) in
  let resp := device_updated_response (u_key u) record
                (clock env (S (ticks w1))) in
  ∃ calls,
    PUT (with_fetch env f) (Returns body) w =
      (Returns resp,
       written w1 (u_key u) (entry_for env record (u_metadata u) (u_ttl u))
         2 calls)
    ∧ status resp = 200
    ∧ member "success" (payload resp) = Some (JBool true)
    ∧ member "type" (payload resp) = Some (JStr "device_updated").
Proof.
  intros Hprep Hput record resp.
  assert (prepare_update (with_fetch env f) body w = (Returns (inr u), w1))
    as Hprep' by exact Hprep.
  rewrite (PUT_commit (with_fetch env f) body w u w1 Hprep'). simpl.
  rewrite Hput. eexists. split; [reflexivity|]. done.
Qed.

Lemma update_succeeds_whatever_fetch_does_witness :
  ∃ resp,
    status resp = 200
    ∧ (PUT (with_fetch Reference.env fetch_unreachable)
         (Returns (Reference.content_body "AABBCCDDEEFF" Reference.no_content))
         Reference.house).1 = Returns resp
    ∧ (PUT (with_fetch Reference.env fetch_refused)
         (Returns (Reference.content_body "AABBCCDDEEFF" Reference.no_content))
         Reference.house).1 = Returns resp.
Proof.
  destruct (update_succeeds_whatever_fetch_does Reference.env
              (Reference.content_body "AABBCCDDEEFF" Reference.no_content)
              Reference.house (tick Reference.house) Reference.desk_cleared
              fetch_unreachable) as (calls1 & H1 & Hst & _);
    [vm_compute; reflexivity | reflexivity |].
  destruct (update_succeeds_whatever_fetch_does Reference.env
              (Reference.content_body "AABBCCDDEEFF" Reference.no_content)
              Reference.house (tick Reference.house) Reference.desk_cleared
              fetch_refused) as (calls2 & H2 & _);
    [vm_compute; reflexivity | reflexivity |].
  eexists. split; [exact Hst|].
  split; [rewrite H1 | rewrite H2]; reflexivity.
Defined.

Section Updates.

Context (env : Env).

Lemma notify_request_same a b :
  same_but_stamps a b → notify_request env a = notify_request env b.
Proof.
  intros H. unfold notify_request.
  by rewrite (H "content"), (H "deviceId"), (H "ownerKey").
Qed.

Lemma same_but_stamps_trans a b c :
  same_but_stamps a b → same_but_stamps b c → same_but_stamps a c.
Proof. intros H1 H2 k ? ?. by rewrite H1, H2. Qed.

(** PUT on a full update: the write under the key of the request, then the
    downstream call. *)
Lemma PUT_full_run body req w :
  full_update_request env body req →
  ∃ data n,
    same_but_stamps data (device_fields (value req))
    ∧ PUT env (Returns body) w =
      let w1 := ticks_by n w in
      let record := stamped data (clock env (ticks w1)) in
      match put_fault env (key req) with
      | Some e => (Returns (handleError e "更新设备"), tick w1)
      | None =>
          (Returns (device_updated_response (key req) record
                      (clock env (S (ticks w1)))),
           written w1 (key req)
             (entry_for env record (metadata req) (ttl req)) 2
             [notify_request env (device_fields (value req))])
      end.
Proof.
  intros [Hcontent Hfull].
  destruct (full_update_run env body req w Hfull) as (data & n & Hrun & Hsame).
  exists data, n. split; [done|].
  rewrite (PUT_commit env body w
             {| u_key := key req; u_data := data;
                u_metadata := metadata req; u_ttl := ttl req |}
             (ticks_by n w)).
  - simpl. destruct (put_fault env (key req)); [done|].
    pose proof (stamped_other data (clock env (n + ticks w))) as Hst.
    rewrite (Hst "content"), (Hsame "content"), device_fields_content by done.
    simpl. do 3 f_equal.
    apply notify_request_same. by eapply same_but_stamps_trans.
  - rewrite prepare_update_full by done. run. by rewrite Hrun.
Qed.

End Updates.




(** C4, as the code has it: on a full update the downstream call is made
    exactly when the write goes through, after it, and whatever the key
    held before: the request is then answered with success, the record is
    under the key and one call, built from the caller's value, has been
    added to the calls made; when the write fails, the request is answered
    with an error and neither the namespace nor the calls have changed. *)
Theorem full_update_notifies_after_write (env : Env) (w : World) (body : json)
    (req : UpdateDeviceRequest) :
  full_update_request env body req →
  ∃ resp w',
    PUT env (Returns body) w = (Returns resp, w')
    ∧ match put_fault env (key req) with
      | None =>
          status resp = 200
          ∧ outbox w'
            = (outbox w ++ [notify_request env (device_fields (value req))])%list
          ∧ ∃ record,
              kv w' = <[key req := entry_for env record (metadata req)
                                     (ttl req)]> (kv w)
      | Some _ =>
          is_error_response resp ∧ outbox w' = outbox w ∧ kv w' = kv w
      end.
Proof.
  intros Hfull.
  destruct (PUT_full_run env body req w Hfull) as (data & n & Hsame & Hrun).
  rewrite Hrun. cbv zeta.
  destruct (put_fault env (key req)) as [e|]; eexists _, _;
    (split; [reflexivity|]).
  - split; [apply handleError_is_error|done].
  - split; [done|]. split; [done|]. eexists. reflexivity.
Qed.

Lemma full_update_notifies_after_write_witness :
  ∃ resp w',
    PUT Reference.env
      (Returns (Reference.request_body "AABBCCDDEEFF" Reference.porch))
      Reference.house = (Returns resp, w')
    ∧ status resp = 200
    ∧ outbox w' = [notify_request Reference.env (device_fields Reference.porch)].
Proof.
  destruct (full_update_notifies_after_write Reference.env Reference.house
              (Reference.request_body "AABBCCDDEEFF" Reference.porch)
              (Reference.request_of "AABBCCDDEEFF" Reference.porch))
    as (resp & w' & Hput & Hst & Hout & _).
  - split; [eexists; vm_compute; reflexivity | vm_compute; reflexivity].
  - exists resp, w'. split; [exact Hput|]. split; [exact Hst|exact Hout].
Defined.

(** C4, as stated, fails on a full update that sends the content the key
    already holds: the downstream call is made all the same. *)
Lemma notification_without_change_counterexample :
  let body := Reference.request_body "AABBCCDDEEFF" Reference.desk in
  let existing := device_fields Reference.desk in
  let after := PUT Reference.env (Returns body) Reference.house in
  full_update_request Reference.env body
    (Reference.request_of "AABBCCDDEEFF" Reference.desk)
  ∧ kv Reference.house !! "AABBCCDDEEFF"
    = Some (entry_for Reference.env existing None None)
  ∧ JSON_parse Reference.env (JSON_stringify Reference.env (JObj existing))
    = Returns (JObj existing)
  ∧ assoc "content" existing
    = Some (content_to_json (content Reference.desk))
  ∧ outbox Reference.house = []
  ∧ outbox after.2
    = [notify_request Reference.env (device_fields Reference.desk)].
Proof.
  split; [split; [eexists; vm_compute; reflexivity | vm_compute; reflexivity]|].
  repeat split; vm_compute; reflexivity.
Qed.

(** C9, as the code has it: a create or a full update writes, if it writes
    at all, one entry under the key of the request, a string that is not
    empty; the record in it carries the [deviceId] of the caller's value,
    twelve characters out of [0-9A-F].  Key and [deviceId] are not
    compared. *)
Theorem persisted_under_request_key (env : Env) (w : World) (body : json)
    (req : CreateDeviceRequest) :
  parse (CreateDeviceRequestSchema env) body = Returns req →
  let under_key (w' : World) :=
    kv w' = kv w
    ∨ ∃ record,
        kv w' = <[key req := entry_for env record (metadata req) (ttl req)]>
                  (kv w)
        ∧ assoc "deviceId" record = Some (JStr (deviceId (value req))) in
  key req ≠ ""
  ∧ re_deviceId (deviceId (value req)) = true
  ∧ (∃ resp w', POST env (Returns body) w = (Returns resp, w') ∧ under_key w')
  ∧ ((∃ e, parse UpdateDeviceContentRequestSchema body = Throws e) →
     ∃ resp w', PUT env (Returns body) w = (Returns resp, w') ∧ under_key w').
Proof.
  intros Hreq under_key.
  destruct (CreateDeviceRequestSchema_parse env body req Hreq) as [Hkey Hid].
  split; [done|]. split; [done|]. split.
  - rewrite (POST_run env body req w Hreq). cbv zeta.
    destruct (precheck_finds env w (key req)); [eexists _, _; split; [done|by left]|].
    destruct (put_fault env (key req)); eexists _, _;
      (split; [reflexivity|]); [by left|].
    right. eexists. split; [reflexivity|].
    rewrite (stamped_other _ _ "deviceId") by done.
    apply device_fields_deviceId.
  - intros Hcontent.
    destruct (PUT_full_run env body req w (conj Hcontent Hreq))
      as (data & n & Hsame & Hrun).
    rewrite Hrun. cbv zeta.
    destruct (put_fault env (key req)); eexists _, _;
      (split; [reflexivity|]); [by left|].
    right. eexists. split; [reflexivity|].
    rewrite (stamped_other _ _ "deviceId"), (Hsame "deviceId") by done.
    apply device_fields_deviceId.
Qed.

Lemma persisted_under_request_key_witness :
  ∃ resp w',
    POST Reference.env
      (Returns (Reference.request_body "AABBCCDDEEFF" Reference.desk))
      Reference.empty_world = (Returns resp, w')
    ∧ (kv w' = ∅
       ∨ ∃ record,
           kv w' = {["AABBCCDDEEFF" := entry_for Reference.env record None None]}
           ∧ assoc "deviceId" record = Some (JStr "AABBCCDDEEFF")).
Proof.
  destruct (persisted_under_request_key Reference.env Reference.empty_world
              (Reference.request_body "AABBCCDDEEFF" Reference.desk)
              (Reference.request_of "AABBCCDDEEFF" Reference.desk))
    as (_ & _ & (resp & w' & Hpost & Hunder) & _).
  - vm_compute. reflexivity.
  - exists resp, w'. split; [exact Hpost|exact Hunder].
Defined.

(** C9, as stated, fails on a create whose key is not the [deviceId] of its
    value: the Device is stored under that key, and nothing is stored under
    its [deviceId]. *)
Lemma stored_under_other_key_counterexample :
  let body := Reference.request_body "kitchen" Reference.desk in
  let after := POST Reference.env (Returns body) Reference.empty_world in
  let record := stamped (device_fields Reference.desk)
                  (Reference.seconds_clock 0) in
  after.1 = Returns (device_created_response "kitchen" record
                       (Reference.seconds_clock 1))
  ∧ kv after.2 !! "kitchen" = Some (entry_for Reference.env record None None)
  ∧ (∃ d, validateDevice Reference.env (JObj record) = Returns d
          ∧ deviceId d = "AABBCCDDEEFF")
  ∧ assoc "deviceId" record = Some (JStr "AABBCCDDEEFF")
  ∧ kv after.2 !! "AABBCCDDEEFF" = None
  ∧ "kitchen" ≠ "AABBCCDDEEFF".
Proof.
  repeat split; try (vm_compute; reflexivity); [|discriminate].
  eexists. split; vm_compute; reflexivity.
Qed.

(** C8: with the listing available, the bulk delete of a supplied owner pair
    deletes the keys whose value yields a device of that pair and whose
    delete goes through, and no other: afterwards these keys are gone and
    every other key, a matching one whose delete failed included, holds what
    it held.  The request is answered with the success envelope that lists
    the deleted keys and whose message carries their number. *)
Theorem delete_by_owner_deletes_matching (env : Env) (w : World) (q : Query)
    (o k : string) :
  keys_fault env = None →
  q_deleteAll q = Some "true" →
  q_owner q = Some o → q_ownerKey q = Some k → o ≠ "" → k ≠ "" →
  let deletedKeys := List.filter (deletable env w o k) (listing w) in
  let resp := bulk_delete_response o deletedKeys (clock env (ticks w)) in
  ∃ w',
    DELETE env q w = (Returns resp, w')
    ∧ status resp = 200
    ∧ member "deletedKeys" (payload resp) = Some (JArr (map JStr deletedKeys))
    ∧ (∀ item, item ∈ deletedKeys ↔
               is_Some (kv w !! item) ∧ deletable env w o k item = true)
    ∧ (∀ item, kv w' !! item =
               if deletable env w o k item then None else kv w !! item).
Proof.
  intros Hkeys Hall Ho Hk Hone Hkne deletedKeys resp.
  assert (∀ item, item ∈ deletedKeys ↔
                  is_Some (kv w !! item) ∧ deletable env w o k item = true)
    as Hmem.
  { intros item. unfold deletedKeys, listing.
    rewrite list_elem_of_In, filter_In, <- list_elem_of_In, list_elem_of_fmap.
    split.
    - intros [([i x] & -> & Hix) Hdel]. split; [|done].
      apply elem_of_map_to_list in Hix. by exists x.
    - intros [[x Hx] Hdel]. split; [|done]. exists (item, x).
      split; [done|]. by apply elem_of_map_to_list. }
  eexists. split.
  { unfold DELETE. rewrite Hall, Ho, Hk.
    assert (given (Some o) = true) as -> by (by destruct o).
    assert (given (Some k) = true) as -> by (by destruct k).
    run. rewrite (keys_list_run env w Hkeys).
    rewrite for_of_visit_delete by apply NoDup_fst_map_to_list.
    reflexivity. }
  split; [done|]. split; [done|]. split; [done|].
  intros item.
  change (kv (tick ?x)) with (kv x). rewrite lookup_without.
  fold deletedKeys.
  destruct (deletable env w o k item) eqn:Hdel; case_bool_decide as Hin;
    try done.
  - destruct (kv w !! item) as [x|] eqn:Hx; [|done].
    exfalso. apply Hin, Hmem. eauto.
  - apply Hmem in Hin as [_ Hin]. congruence.
Qed.

Lemma delete_by_owner_deletes_matching_witness :
  (∃ w',
     DELETE Reference.env (bulk_delete_query "alice" Reference.alice_key)
       Reference.flat
     = (Returns (bulk_delete_response "alice"
                   ["AABBCCDDEEFF"; "0123456789AB"; "00000000000D"]
                   "2025-06-01T12:00:00.000Z"), w')
     ∧ kv w' !! "AABBCCDDEEFF" = None
     ∧ kv w' !! "00000000000B" = Some (Reference.entry_of Reference.door)
     ∧ kv w' !! "00000000000C" = Some (Reference.entry_of Reference.attic))
  ∧ (∃ w',
       DELETE Reference.env_keeping_shelf
         (bulk_delete_query "alice" Reference.alice_key) Reference.flat
       = (Returns (bulk_delete_response "alice"
                     ["AABBCCDDEEFF"; "00000000000D"]
                     "2025-06-01T12:00:00.000Z"), w')
       ∧ kv w' !! "0123456789AB" = Some (Reference.entry_of Reference.shelf)
       ∧ kv w' !! "00000000000D" = None).
Proof.
  split.
  - destruct (delete_by_owner_deletes_matching Reference.env Reference.flat
                (bulk_delete_query "alice" Reference.alice_key)
                "alice" Reference.alice_key)
      as (w' & Hdel & _ & _ & _ & Hkv);
      [reflexivity | reflexivity | reflexivity | reflexivity
      | discriminate | discriminate |].
    exists w'. split; [exact Hdel|].
    rewrite !Hkv. repeat split; vm_compute; reflexivity.
  - destruct (delete_by_owner_deletes_matching Reference.env_keeping_shelf
                Reference.flat
                (bulk_delete_query "alice" Reference.alice_key)
                "alice" Reference.alice_key)
      as (w' & Hdel & _ & _ & _ & Hkv);
      [reflexivity | reflexivity | reflexivity | reflexivity
      | discriminate | discriminate |].
    exists w'. split; [exact Hdel|].
    rewrite !Hkv. repeat split; vm_compute; reflexivity.
Defined.

(** ** Further properties: the schemas *)

Lemma run_checks_nil p cs s :
  run_checks p cs s = [] ↔ Forall (fun c : check => c.1 s = true) cs.
Proof.
  induction cs as [|c cs IH].
  - split; [constructor|done].
  - unfold run_checks in *. simpl. destruct (c.1 s) eqn:Hc.
    + rewrite IH. split; [by constructor|]. by intros H; inversion H.
    + split; [discriminate|]. intros H. inversion H. congruence.
Qed.

Lemma z_string_ok cs p s :
  Forall (fun c : check => c.1 s = true) cs →
  z_string cs p (Some (JStr s)) = inr s.
Proof.
  intros H. unfold z_string. by rewrite (proj2 (run_checks_nil p cs s) H).
Qed.

Lemma z_optional_inr {A} (schema : list string → option json → zres A) p v o :
  z_optional schema p v = inr o →
  (v = None ∧ o = None) ∨ (∃ a, o = Some a ∧ schema p v = inr a).
Proof.
  unfold z_optional. destruct v as [j|]; [|intros H; injection H as <-; by left].
  destruct (schema p (Some j)) as [i|a]; [discriminate|].
  intros H. injection H as <-. right. eauto.
Qed.

Lemma z_optional_string_inr cs p v o :
  z_optional (z_string cs) p v = inr o →
  v = JStr <$> o
  ∧ match o with
    | Some s => Forall (fun c : check => c.1 s = true) cs
    | None => True
    end.
Proof.
  intros H. apply z_optional_inr in H as [[-> ->]|(s & -> & H)]; [done|].
  apply z_string_inr in H as [-> H]. split; [done|].
  by apply (run_checks_nil p).
Qed.

Lemma z_optional_string_ok cs p o :
  match o with
  | Some s => Forall (fun c : check => c.1 s = true) cs
  | None => True
  end →
  z_optional (z_string cs) p (JStr <$> o) = inr o.
Proof.
  destruct o as [s|]; [|done]. intros H.
  change (JStr <$> Some s) with (Some (JStr s)).
  unfold z_optional. by rewrite z_string_ok.
Qed.

Lemma content_fields_title c :
  member "title" (content_to_json c) = JStr <$> title c.
Proof. by destruct c as [[?|] [?|] [?|] [?|]]. Qed.

Lemma content_fields_message c :
  member "message" (content_to_json c) = JStr <$> message c.
Proof. by destruct c as [[?|] [?|] [?|] [?|]]. Qed.

Lemma content_fields_signature c :
  member "signature" (content_to_json c) = JStr <$> signature c.
Proof. by destruct c as [[?|] [?|] [?|] [?|]]. Qed.

Lemma content_fields_link c :
  member "link" (content_to_json c) = JStr <$> link c.
Proof. by destruct c as [[?|] [?|] [?|] [?|]]. Qed.

Lemma device_fields_owner d :
  assoc "owner" (device_fields d) = Some (JStr (owner d)).
Proof. by destruct d as [? ? ? ? ? [?|] [?|]]. Qed.

Lemma device_fields_name d :
  assoc "name" (device_fields d) = Some (JStr (name d)).
Proof. by destruct d as [? ? ? ? ? [?|] [?|]]. Qed.

Lemma device_fields_updatedAt d :
  assoc "updatedAt" (device_fields d) = JStr <$> updatedAt d.
Proof. by destruct d as [? ? ? ? ? [?|] [?|]]. Qed.

Lemma DeviceContentSchema_inr p v c :
  DeviceContentSchema p v = inr c →
  content_ok c = true ∧ ∃ fs, v = Some (JObj fs).
Proof.
  unfold DeviceContentSchema, z_object.
  destruct v as [[| | | | |fs]|]; try discriminate. intros H.
  repeat (apply zap_inr in H as (? & ? & H & ? & ->)).
  injection H as <-. split; [|eauto]. unfold field in *.
  repeat match goal with
         | H : z_optional (z_string _) _ _ = inr _ |- _ =>
             apply z_optional_string_inr in H as [_ H]
         end.
  unfold content_ok. cbn [title message signature link].
  rewrite !andb_true_iff.
  repeat match goal with
         | o : option string |- _ => destruct o
         end;
    repeat match goal with
           | H : Forall _ (_ :: _) |- _ => inversion_clear H
           end;
    repeat split; first [assumption | reflexivity].
Qed.

Lemma DeviceContentSchema_ok p c :
  content_ok c = true →
  DeviceContentSchema p (Some (content_to_json c)) = inr c.
Proof.
  unfold content_ok. rewrite !andb_true_iff. intros [[Ht Hm] Hs].
  unfold DeviceContentSchema, z_object, content_to_json, field.
  change (assoc ?k (obj_lit ?l)) with (member k (JObj (obj_lit l))).
  fold (content_to_json c).
  rewrite content_fields_title, content_fields_message,
    content_fields_signature, content_fields_link.
  rewrite !z_optional_string_ok.
  - by destruct c.
  - by destruct (link c).
  - destruct (signature c); [|done]. by repeat constructor.
  - destruct (message c); [|done]. by repeat constructor.
  - destruct (title c); [|done]. by repeat constructor.
Qed.

Section SchemaExtras.

Context (env : Env).

Lemma DeviceSchema_sound p v d :
  DeviceSchema env p v = inr d → device_ok env d = true.
Proof.
  unfold DeviceSchema, z_object.
  destruct v as [[| | | | |fs]|]; try discriminate. intros H.
  repeat (apply zap_inr in H as (? & ? & H & ? & ->)).
  injection H as <-. unfold field in *.
  repeat match goal with
         | H : z_string _ _ _ = inr _ |- _ =>
             apply z_string_inr in H as [_ H]; apply run_checks_nil in H
         | H : z_optional (z_string _) _ _ = inr _ |- _ =>
             apply z_optional_string_inr in H as [_ H]
         | H : DeviceContentSchema _ _ = inr _ |- _ =>
             apply DeviceContentSchema_inr in H as [H _]
         end.
  unfold device_ok.
  cbn [owner ownerKey deviceId name content createdAt updatedAt].
  rewrite !andb_true_iff.
  repeat match goal with
         | o : option string |- _ => destruct o
         end;
    repeat match goal with
           | H : Forall _ (_ :: _) |- _ => inversion_clear H
           end;
    repeat split; first [assumption | reflexivity].
Qed.

Lemma DeviceSchema_ok p d :
  device_ok env d = true →
  DeviceSchema env p (Some (device_to_json d)) = inr d.
Proof.
  unfold device_ok. rewrite !andb_true_iff.
  intros [[[[[[[[Ho1 Ho2] Hk] Hid] Hn1] Hn2] Hc] Hca] Hua].
  unfold DeviceSchema, z_object, device_to_json, field.
  rewrite device_fields_owner, device_fields_ownerKey, device_fields_deviceId,
    device_fields_name, device_fields_content, device_fields_createdAt,
    device_fields_updatedAt.
  rewrite (DeviceContentSchema_ok _ _ Hc).
  rewrite !z_string_ok, !z_optional_string_ok.
  - by destruct d.
  - destruct (updatedAt d); [|done]. by repeat constructor.
  - destruct (createdAt d); [|done]. by repeat constructor.
  - by repeat constructor.
  - by repeat constructor.
  - by repeat constructor.
  - by repeat constructor.
Qed.

End SchemaExtras.

(** ** Further properties: what the handlers leave alone *)

Section Keeps.

Context (R : World → World → Prop).
Context (R_refl : ∀ w, R w w).
Context (R_trans : ∀ w1 w2 w3, R w1 w2 → R w2 w3 → R w1 w3).

Lemma keeps_ret {A} (a : A) : keeps R (mret a).
Proof. intros w r w' H. injection H as _ <-. apply R_refl. Qed.

Lemma keeps_throw {A} (e : Exn) : keeps R (throw e : M A).
Proof. intros w r w' H. injection H as _ <-. apply R_refl. Qed.

Lemma keeps_lift {A} (o : outcome A) : keeps R (lift o).
Proof. intros w r w' H. injection H as _ <-. apply R_refl. Qed.

Lemma keeps_bind {A B} (m : M A) (f : A → M B) :
  keeps R m → (∀ a, keeps R (f a)) → keeps R (m ≫= f).
Proof.
  intros Hm Hf w r w' H. unfold mbind, M_bind in H.
  destruct (m w) as [[a|e] w1] eqn:E.
  - eapply R_trans; [by eapply Hm | by eapply Hf].
  - injection H as _ <-. by eapply Hm.
Qed.

Lemma keeps_try_catch {A} (m : M A) (h : Exn → M A) :
  keeps R m → (∀ e, keeps R (h e)) → keeps R (try_catch m h).
Proof.
  intros Hm Hh w r w' H. unfold try_catch in H.
  destruct (m w) as [[a|e] w1] eqn:E.
  - injection H as _ <-. by eapply Hm.
  - eapply R_trans; [by eapply Hm | by eapply Hh].
Qed.

Lemma keeps_for_of {A} (visit : A → string → M A) items :
  (∀ acc item, keeps R (visit acc item)) →
  ∀ acc, keeps R (for_of visit items acc).
Proof.
  intros Hv. induction items as [|item rest IH]; intros acc; simpl.
  - apply keeps_ret.
  - apply keeps_bind; [apply Hv | apply IH].
Qed.

Lemma keeps_if {A} (b : bool) (m1 m2 : M A) :
  keeps R m1 → keeps R m2 → keeps R (if b then m1 else m2).
Proof. by destruct b. Qed.

End Keeps.

Lemma same_store_refl w : same_store w w.
Proof. done. Qed.

Lemma same_store_trans w1 w2 w3 :
  same_store w1 w2 → same_store w2 w3 → same_store w1 w3.
Proof. intros [? ?] [? ?]. split; congruence. Qed.

Lemma same_outbox_refl w : same_outbox w w.
Proof. done. Qed.

Lemma same_outbox_trans w1 w2 w3 :
  same_outbox w1 w2 → same_outbox w2 w3 → same_outbox w1 w3.
Proof. unfold same_outbox. congruence. Qed.

Lemma same_store_outbox {A} (m : M A) : keeps same_store m → keeps same_outbox m.
Proof. intros H w r w' E. by destruct (H w r w' E). Qed.

(** A handler whose outer [catch] answers never throws. *)
Lemma try_catch_answers {A} (m : M A) (f : Exn → A) w :
  ∃ a w', try_catch m (fun e => mret (f e)) w = (Returns a, w').
Proof. unfold try_catch. destruct (m w) as [[a|e] w1]; eauto. Qed.

Section KeepsRoute.

Context (env : Env).

Lemma keeps_Date_now : keeps same_store (Date_now env).
Proof. intros w r w' H. injection H as _ <-. done. Qed.

Lemma keeps_keys_list : keeps same_store (keys_list env).
Proof.
  unfold keys_list. destruct (keys_fault env).
  - apply keeps_throw, same_store_refl.
  - intros w r w' H. injection H as _ <-. done.
Qed.

Lemma keeps_values_get item : keeps same_store (values_get env item).
Proof.
  unfold values_get. destruct (get_fault env item).
  - apply keeps_throw, same_store_refl.
  - intros w r w' H. injection H as _ <-. done.
Qed.

Lemma keeps_values_update item text md t :
  keeps same_outbox (values_update env item text md t).
Proof.
  unfold values_update. destruct (put_fault env item).
  - apply keeps_throw, same_outbox_refl.
  - intros w r w' H. injection H as _ <-. done.
Qed.

Lemma keeps_values_delete item : keeps same_outbox (values_delete env item).
Proof.
  unfold values_delete. destruct (delete_fault env item).
  - apply keeps_throw, same_outbox_refl.
  - intros w r w' H. injection H as _ <-. done.
Qed.

Lemma keeps_createSuccessResponse data type :
  keeps same_store (createSuccessResponse env data type).
Proof. intros w r w' H. injection H as _ <-. done. Qed.

Lemma keeps_normalizeDeviceData raw :
  keeps same_store (normalizeDeviceData env raw).
Proof. intros w r w' H. injection H as _ <-. done. Qed.

End KeepsRoute.

(** Decomposes a goal [keeps R m] along the structure of [m]. *)
Ltac keeps_store :=
  repeat first
    [ apply keeps_ret; [apply same_store_refl]
    | apply keeps_throw; [apply same_store_refl]
    | apply keeps_lift; [apply same_store_refl]
    | apply keeps_Date_now
    | apply keeps_keys_list
    | apply keeps_values_get
    | apply keeps_createSuccessResponse
    | apply keeps_normalizeDeviceData
    | apply keeps_for_of; [apply same_store_refl | apply same_store_trans | intros ? ?]
    | apply keeps_try_catch; [apply same_store_trans | | intros ?]
    | apply keeps_bind; [apply same_store_trans | | intros ?]
    | match goal with
      | |- keeps _ (if ?b then _ else _) => destruct b
      | |- keeps _ (match ?x with _ => _ end) => destruct x
      end ].

Ltac keeps_outbox :=
  repeat first
    [ apply keeps_ret; [apply same_outbox_refl]
    | apply keeps_throw; [apply same_outbox_refl]
    | apply keeps_lift; [apply same_outbox_refl]
    | apply same_store_outbox; apply keeps_Date_now
    | apply same_store_outbox; apply keeps_keys_list
    | apply same_store_outbox; apply keeps_values_get
    | apply same_store_outbox; apply keeps_createSuccessResponse
    | apply same_store_outbox; apply keeps_normalizeDeviceData
    | apply keeps_values_update
    | apply keeps_values_delete
    | apply keeps_for_of; [apply same_outbox_refl | apply same_outbox_trans | intros ? ?]
    | apply keeps_try_catch; [apply same_outbox_trans | | intros ?]
    | apply keeps_bind; [apply same_outbox_trans | | intros ?]
    | match goal with
      | |- keeps _ (if ?b then _ else _) => destruct b
      | |- keeps _ (match ?x with _ => _ end) => destruct x
      end ].

Section KeepsHandlers.

Context (env : Env).

Lemma keeps_GET q : keeps same_store (GET env q).
Proof. unfold GET, visit_owned, visit_any. keeps_store. Qed.

Lemma keeps_POST request_json : keeps same_outbox (POST env request_json).
Proof. unfold POST. keeps_outbox. Qed.

Lemma keeps_DELETE q : keeps same_outbox (DELETE env q).
Proof. unfold DELETE, visit_delete. keeps_outbox. Qed.

Lemma keeps_prepare_update body : keeps same_store (prepare_update env body).
Proof.
  unfold prepare_update, content_update, full_update, or_else. keeps_store.
Qed.

End KeepsHandlers.

Lemma parse_throws_zod {A} (schema : list string → option json → zres A)
    data e :
  parse schema data = Throws e → ∃ issues, e = ZodError issues.
Proof.
  unfold parse. destruct (schema [] (Some data)); [|discriminate].
  intros H. injection H as <-. eauto.
Qed.

Lemma z_number_inr lo hi p v n :
  z_number lo hi p v = inr n → (lo ≤ n ≤ hi)%Z.
Proof.
  unfold z_number. destruct v as [[| |m| | |]|]; try discriminate.
  destruct (lo <=? m)%Z eqn:Hlo; [|discriminate].
  destruct (m <=? hi)%Z eqn:Hhi; [|discriminate].
  simpl. intros H. injection H as <-. lia.
Qed.

Lemma re_deviceId_length s : re_deviceId s = true → String.length s = 12.
Proof.
  unfold re_deviceId. rewrite andb_true_iff. intros [H _].
  by apply Nat.eqb_eq.
Qed.

(** X1: a value that [validateDevice] accepts keeps the bounds of the
    schema: owner of 1 to 30 characters, the two patterns, a device id of
    twelve characters, name of 1 to 50 characters, the limits of the content
    and timestamps that are datetimes when present. *)
Theorem validated_device_within_bounds (env : Env) (data : json) (d : Device) :
  validateDevice env data = Returns d →
  (1 ≤ String.length (owner d) ≤ 30)%nat
  ∧ re_ownerKey (ownerKey d) = true
  ∧ re_deviceId (deviceId d) = true
  ∧ String.length (deviceId d) = 12
  ∧ (1 ≤ String.length (name d) ≤ 50)%nat
  ∧ at_most 100 (title (content d)) = true
  ∧ at_most 500 (message (content d)) = true
  ∧ at_most 50 (signature (content d)) = true
  ∧ datetime_or_absent env (createdAt d) = true
  ∧ datetime_or_absent env (updatedAt d) = true.
Proof.
  unfold validateDevice, parse.
  destruct (DeviceSchema env [] (Some data)) as [i|d'] eqn:H; [discriminate|].
  intros E. injection E as ->. apply DeviceSchema_sound in H.
  unfold device_ok, content_ok in H. rewrite !andb_true_iff in H.
  destruct H as [[[[[[[[Ho1 Ho2] Hk] Hid] Hn1] Hn2] [[Ht Hm] Hs]] Hca] Hua].
  apply Nat.leb_le in Ho1, Ho2, Hn1, Hn2.
  pose proof (re_deviceId_length _ Hid). repeat split; done.
Qed.

Lemma validated_device_within_bounds_witness :
  (1 ≤ String.length (owner Reference.desk) ≤ 30)%nat
  ∧ String.length (deviceId Reference.desk) = 12
  ∧ datetime_or_absent Reference.env (createdAt Reference.desk) = true.
Proof.
  destruct (validated_device_within_bounds Reference.env
              (device_to_json Reference.desk) Reference.desk)
    as (Ho & _ & _ & Hid & _ & _ & _ & _ & Hca & _).
  - vm_compute. reflexivity.
  - split; [exact Ho|]. split; [exact Hid|exact Hca].
Defined.

(** X2: the object that [validateDevice] returns validates to itself: the
    schema keeps its own properties and drops every other one, so that a
    second validation changes nothing. *)
Theorem validated_device_revalidates (env : Env) (data : json) (d : Device) :
  validateDevice env data = Returns d →
  validateDevice env (device_to_json d) = Returns d.
Proof.
  unfold validateDevice, parse.
  destruct (DeviceSchema env [] (Some data)) as [i|d'] eqn:H; [discriminate|].
  intros E. injection E as ->. apply DeviceSchema_sound in H.
  by rewrite (DeviceSchema_ok env [] d H).
Qed.

Lemma validated_device_revalidates_witness :
  validateDevice Reference.env (device_to_json Reference.porch)
  = Returns Reference.porch.
Proof.
  apply (validated_device_revalidates Reference.env
           (JObj (("colour", JStr "red") :: device_fields Reference.porch))).
  vm_compute. reflexivity.
Defined.

(** X3: a value that [validateDeviceContent] accepts is an object whose
    title, message and signature keep the limits of 100, 500 and 50
    characters, and the content it returns validates to itself. *)
Theorem validated_content_within_bounds (data : json) (c : DeviceContent) :
  validateDeviceContent data = Returns c →
  (∃ fs, data = JObj fs)
  ∧ at_most 100 (title c) = true
  ∧ at_most 500 (message c) = true
  ∧ at_most 50 (signature c) = true
  ∧ validateDeviceContent (content_to_json c) = Returns c.
Proof.
  unfold validateDeviceContent, parse.
  destruct (DeviceContentSchema [] (Some data)) as [i|c'] eqn:H;
    [discriminate|].
  intros E. injection E as ->.
  apply DeviceContentSchema_inr in H as [Hok [fs Hfs]].
  injection Hfs as ->. split; [eauto|].
  rewrite (DeviceContentSchema_ok [] c Hok).
  unfold content_ok in Hok. rewrite !andb_true_iff in Hok. tauto.
Qed.

Lemma validated_content_within_bounds_witness :
  at_most 100 (title Reference.hi) = true
  ∧ validateDeviceContent (content_to_json Reference.hi) = Returns Reference.hi.
Proof.
  destruct (validated_content_within_bounds (content_to_json Reference.hi)
              Reference.hi) as (_ & Ht & _ & _ & Hre).
  - vm_compute. reflexivity.
  - split; [exact Ht|exact Hre].
Defined.

Lemma CreateDeviceRequestSchema_sound (env : Env) (body : json)
    (req : CreateDeviceRequest) :
  parse (CreateDeviceRequestSchema env) body = Returns req →
  key req ≠ ""
  ∧ device_ok env (value req) = true
  ∧ (∀ t, ttl req = Some t → (60 ≤ t ≤ 31536000)%Z)
  ∧ (∀ md, metadata req = Some md → ∃ fs, md = JObj fs).
Proof.
  unfold parse.
  destruct (CreateDeviceRequestSchema env [] (Some body)) as [i|r] eqn:H;
    [discriminate|].
  intros E. injection E as <-.
  unfold CreateDeviceRequestSchema, z_object in H.
  destruct body as [| | | | |fs]; try discriminate.
  repeat (apply zap_inr in H as (? & ? & H & ? & ->)).
  injection H as <-. unfold field in *.
  cbn [key value metadata ttl].
  match goal with H : DeviceSchema env _ _ = inr _ |- _ =>
    apply DeviceSchema_sound in H; rename H into Hdev end.
  match goal with H : z_string _ _ _ = inr _ |- _ =>
    apply z_string_inr in H as [_ H];
    apply run_checks_cons in H as [H _]; apply z_min_1 in H;
    rename H into Hkey end.
  match goal with H : z_optional z_record_any _ _ = inr _ |- _ =>
    rename H into Hmd end.
  match goal with H : z_optional (z_number _ _) _ _ = inr _ |- _ =>
    rename H into Httl end.
  split; [exact Hkey|]. split; [exact Hdev|]. split.
  - intros t Ht. subst.
    apply z_optional_inr in Httl as [[_ Hn]|(n & Hn & Httl)];
      [discriminate Hn|].
    injection Hn as <-. exact (z_number_inr _ _ _ _ _ Httl).
  - intros md Hm. subst.
    apply z_optional_inr in Hmd as [[_ Hn]|(n & Hn & Hmd)];
      [discriminate Hn|].
    injection Hn as <-. unfold z_record_any in Hmd.
    destruct (assoc "metadata" fs) as [[| | | | |ms]|]; try discriminate Hmd.
    injection Hmd as <-. eauto.
Qed.

(** X4: a body that [CreateDeviceRequestSchema] accepts has a key that is
    not empty, a value within the bounds of [DeviceSchema], a [ttl], when
    there is one, between 60 and 31536000, and a [metadata], when there is
    one, that is an object. *)
Theorem create_request_within_bounds (env : Env) (body : json)
    (req : CreateDeviceRequest) :
  parse (CreateDeviceRequestSchema env) body = Returns req →
  key req ≠ ""
  ∧ device_ok env (value req) = true
  ∧ (∀ t, ttl req = Some t → (60 ≤ t ≤ 31536000)%Z)
  ∧ (∀ md, metadata req = Some md → ∃ fs, md = JObj fs).
Proof.
  intros Hreq.
  destruct (CreateDeviceRequestSchema_sound env body req Hreq)
    as (Hkey & Hdev & Httl & Hmd).
  split; [exact Hkey|]. split; [exact Hdev|]. split; [exact Httl|exact Hmd].
Qed.

Lemma create_request_within_bounds_witness :
  "AABBCCDDEEFF" ≠ ""
  ∧ device_ok Reference.env Reference.desk = true.
Proof.
  destruct (create_request_within_bounds Reference.env
              (Reference.request_body "AABBCCDDEEFF" Reference.desk)
              (Reference.request_of "AABBCCDDEEFF" Reference.desk))
    as (Hk & Hd & _).
  - vm_compute. reflexivity.
  - split; [exact Hk|exact Hd].
Defined.

(** X5: a request whose body cannot be read, or whose body the schemas
    refuse, is answered by [handleError] and nothing is read or written:
    POST answers 400 with the issues of the create schema, and PUT, for a
    body that neither schema accepts, 400 with the issues of the full-update
    schema, those of the content schema being lost. *)
Theorem refused_body_changes_nothing (env : Env) (w : World) :
  (∀ e, POST env (Throws e) w = (Returns (handleError e "创建设备"), w)
        ∧ PUT env (Throws e) w = (Returns (handleError e "更新设备"), w))
  ∧ (∀ body e,
       parse (CreateDeviceRequestSchema env) body = Throws e →
       POST env (Returns body) w = (Returns (handleError e "创建设备"), w)
       ∧ status (handleError e "创建设备") = 400)
  ∧ (∀ body e1 e2,
       parse UpdateDeviceContentRequestSchema body = Throws e1 →
       parse (UpdateDeviceRequestSchema env) body = Throws e2 →
       PUT env (Returns body) w = (Returns (handleError e2 "更新设备"), w)
       ∧ status (handleError e2 "更新设备") = 400).
Proof.
  split; [done|]. split.
  - intros body e H. unfold POST. run. rewrite H. run. split; [done|].
    by apply parse_throws_zod in H as [issues ->].
  - intros body e1 e2 H1 H2.
    unfold PUT, prepare_update, content_update, full_update. run.
    rewrite H1. run. rewrite H2. run. split; [done|].
    by apply parse_throws_zod in H2 as [issues ->].
Qed.

Lemma refused_body_changes_nothing_witness :
  ∃ issues,
    PUT Reference.env
      (Returns (Reference.content_body "AABBCCDDEEFF"
                  {| title := Some long_name; message := None;
                     signature := Some long_name; link := None |}))
      Reference.house
    = (Returns (handleError (ZodError issues) "更新设备"), Reference.house)
    ∧ map issue_path issues = [["value"]].
Proof.
  destruct (refused_body_changes_nothing Reference.env Reference.house)
    as (_ & _ & Hput).
  exists [{| issue_path := ["value"]; issue_message := "Required" |}].
  split; [|reflexivity].
  eapply Hput; vm_compute; reflexivity.
Defined.

(** ** Further properties: the handlers *)

Section MoreRuns.

Context (env : Env).

Lemma PUT_failed body w e w1 :
  prepare_update env body w = (Throws e, w1) →
  PUT env (Returns body) w = (Returns (handleError e "更新设备"), w1).
Proof. intros H. unfold PUT. run. by rewrite H. Qed.

Lemma readable_text_get k w :
  values_get env k w =
  match get_fault env k with
  | Some e => (Throws e, w)
  | None => (Returns (entry_value <$> kv w !! k), w)
  end.
Proof. unfold values_get. by destruct (get_fault env k). Qed.

Lemma DELETE_one_run q k w :
  bulk_requested q = false → q_key q = Some k → k ≠ "" →
  DELETE env q w =
  match readable_text env w k with
  | None => (Returns no_device, w)
  | Some _ =>
      match delete_fault env k with
      | Some e => (Returns (handleError e "删除设备"), w)
      | None =>
          (Returns (device_deleted_response k (clock env (ticks w))),
           tick (without [k] w))
      end
  end.
Proof.
  intros Hbulk Hkey Hk. unfold bulk_requested in Hbulk.
  unfold DELETE. rewrite Hbulk, Hkey.
  assert (given (Some k) = true) as -> by (by destruct k).
  unfold readable_text, values_get, values_delete. run.
  destruct (get_fault env k); run; [done|].
  destruct (kv w !! k) as [e|]; run; [|done].
  destruct (is_empty (entry_value e)); run; [done|].
  destruct (delete_fault env k); run; done.
Qed.

Lemma DELETE_no_key q w :
  bulk_requested q = false → given (q_key q) = false →
  DELETE env q w = (Returns missing_key_response, w).
Proof.
  intros Hbulk Hkey. unfold bulk_requested in Hbulk.
  unfold DELETE. by rewrite Hbulk, Hkey.
Qed.

Lemma DELETE_bulk_run q w :
  bulk_requested q = true →
  DELETE env q w =
  match keys_fault env with
  | Some e => (Returns (handleError e "删除设备"), w)
  | None =>
      let deletedKeys :=
        List.filter (deletable env w (param (q_owner q)) (param (q_ownerKey q)))
          (listing w) in
      (Returns (bulk_delete_response (param (q_owner q)) deletedKeys
                  (clock env (ticks w))),
       tick (without deletedKeys w))
  end.
Proof.
  intros Hbulk. unfold bulk_requested in Hbulk.
  unfold DELETE. rewrite Hbulk. unfold keys_list.
  destruct (keys_fault env) as [e|]; run; [done|].
  fold (listing w).
  rewrite for_of_visit_delete by apply NoDup_fst_map_to_list.
  reflexivity.
Qed.

Lemma GET_one_run q k w :
  given (q_owner q) && given (q_ownerKey q) = false →
  q_key q = Some k → k ≠ "" →
  GET env q w =
  match get_fault env k with
  | Some e =>
      if is_not_found e then (Returns not_found_device, w)
      else (Returns (handleError e "获取设备数据"), w)
  | None =>
      match kv w !! k with
      | None => (Returns not_found_device, w)
      | Some x =>
          match JSON_parse env (entry_value x) with
          | Throws e =>
              if is_not_found e then (Returns not_found_device, w)
              else (Returns (handleError e "获取设备数据"), w)
          | Returns deviceData =>
              match validateDevice env deviceData with
              | Throws e =>
                  if is_not_found e then (Returns not_found_device, w)
                  else (Returns (handleError e "获取设备数据"), w)
              | Returns d =>
                  (Returns (device_details_response k d (clock env (ticks w))),
                   tick w)
              end
          end
      end
  end.
Proof.
  intros Hpair Hkey Hk. unfold GET. rewrite Hpair, Hkey.
  assert (given (Some k) = true) as -> by (by destruct k).
  unfold values_get. run.
  destruct (get_fault env k) as [e|]; run.
  { by destruct (is_not_found e). }
  destruct (kv w !! k) as [x|]; run; [|done].
  destruct (JSON_parse env (entry_value x)) as [j|e]; run.
  - destruct (validateDevice env j) as [d|e]; run; [done|].
    by destruct (is_not_found e).
  - by destruct (is_not_found e).
Qed.

Lemma DeviceSchema_of_fields p fs d :
  device_ok env d = true →
  assoc "owner" fs = Some (JStr (owner d)) →
  assoc "ownerKey" fs = Some (JStr (ownerKey d)) →
  assoc "deviceId" fs = Some (JStr (deviceId d)) →
  assoc "name" fs = Some (JStr (name d)) →
  assoc "content" fs = Some (content_to_json (content d)) →
  assoc "createdAt" fs = JStr <$> createdAt d →
  assoc "updatedAt" fs = JStr <$> updatedAt d →
  DeviceSchema env p (Some (JObj fs)) = inr d.
Proof.
  unfold device_ok. rewrite !andb_true_iff.
  intros [[[[[[[[Ho1 Ho2] Hk] Hid] Hn1] Hn2] Hc] Hca] Hua].
  intros H1 H2 H3 H4 H5 H6 H7.
  unfold DeviceSchema, z_object, field.
  rewrite H1, H2, H3, H4, H5, H6, H7.
  rewrite (DeviceContentSchema_ok _ _ Hc).
  rewrite !z_string_ok, !z_optional_string_ok.
  - by destruct d.
  - destruct (updatedAt d); [|done]. by repeat constructor.
  - destruct (createdAt d); [|done]. by repeat constructor.
  - by repeat constructor.
  - by repeat constructor.
  - by repeat constructor.
  - by repeat constructor.
Qed.

Lemma normalized_device_ok d now :
  device_ok env d = true → isDatetime env now = true →
  device_ok env (normalized_device d now) = true.
Proof.
  unfold device_ok. rewrite !andb_true_iff.
  intros [[[[[[[[Ho1 Ho2] Hk] Hid] Hn1] Hn2] Hc] Hca] Hua] Hnow.
  simpl. repeat split; try done.
  destruct (createdAt d) as [[|a ca]|]; done.
Qed.


(** The record that POST and PUT write for a valid device validates to the
    normalized device, whatever the order of its properties. *)
Lemma stamped_device_validates p d now :
  device_ok env d = true → isDatetime env now = true →
  DeviceSchema env p (Some (JObj (stamped (device_fields d) now)))
  = inr (normalized_device d now).
Proof.
  intros Hd Hnow. apply DeviceSchema_of_fields.
  - by apply normalized_device_ok.
  - rewrite (stamped_other _ _ "owner") by done. exact (device_fields_owner d).
  - rewrite (stamped_other _ _ "ownerKey") by done.
    exact (device_fields_ownerKey d).
  - rewrite (stamped_other _ _ "deviceId") by done.
    exact (device_fields_deviceId d).
  - rewrite (stamped_other _ _ "name") by done. exact (device_fields_name d).
  - rewrite (stamped_other _ _ "content") by done.
    exact (device_fields_content d).
  - rewrite stamped_createdAt, device_fields_createdAt.
    cbn [normalized_device createdAt].
    by destruct (createdAt d) as [[|a c]|].
  - apply stamped_updatedAt.
Qed.

End MoreRuns.

(** X6: no exception escapes a handler: whatever the request, the world and
    the environment, each of GET, POST, PUT and DELETE returns a response,
    and [getDevicesServerSide] returns a result. *)
Theorem handlers_never_throw (env : Env) (w : World) :
  (∀ q, ∃ r w', GET env q w = (Returns r, w'))
  ∧ (∀ request_json, ∃ r w', POST env request_json w = (Returns r, w'))
  ∧ (∀ request_json, ∃ r w', PUT env request_json w = (Returns r, w'))
  ∧ (∀ q, ∃ r w', DELETE env q w = (Returns r, w'))
  ∧ (∀ zod_message window_defined,
       ∃ r w',
         getDevicesServerSide env zod_message window_defined w
         = (Returns r, w')).
Proof.
  repeat split; intros; apply try_catch_answers.
Qed.

(** X7: GET only reads: whatever the query and whatever the service does,
    the namespace and the downstream calls made are after the request what
    they were before it. *)
Theorem GET_reads_only (env : Env) (q : Query) (w : World) :
  kv (GET env q w).2 = kv w ∧ outbox (GET env q w).2 = outbox w.
Proof.
  destruct (GET env q w) as [r w'] eqn:H. exact (keeps_GET env q w r w' H).
Qed.

(** X8: only PUT calls the downstream API: POST and DELETE never add a
    call, and one PUT adds at most one. *)
Theorem only_PUT_calls_downstream (env : Env) (w : World) :
  (∀ request_json, outbox (POST env request_json w).2 = outbox w)
  ∧ (∀ q, outbox (DELETE env q w).2 = outbox w)
  ∧ (∀ request_json,
       ∃ calls, outbox (PUT env request_json w).2 = (outbox w ++ calls)%list
                ∧ (length calls ≤ 1)%nat).
Proof.
  split; [|split].
  - intros rj. destruct (POST env rj w) as [r w'] eqn:H.
    exact (keeps_POST env rj w r w' H).
  - intros q. destruct (DELETE env q w) as [r w'] eqn:H.
    exact (keeps_DELETE env q w r w' H).
  - intros [body|e]; [|exists []; split; [by rewrite app_nil_r|simpl; lia]].
    destruct (prepare_update env body w) as [[[r|u]|e] w1] eqn:H;
      destruct (keeps_prepare_update env body w _ _ H) as [_ Hout].
    + rewrite (PUT_early env body w r w1 H). exists [].
      split; [by rewrite app_nil_r|simpl; lia].
    + rewrite (PUT_commit env body w u w1 H). cbv zeta.
      destruct (put_fault env (u_key u)).
      * exists []. split; [by rewrite app_nil_r|simpl; lia].
      * eexists. split; [simpl; by rewrite Hout|].
        destruct (truthy _); simpl; lia.
    + rewrite (PUT_failed env body w e w1 H). exists [].
      split; [by rewrite app_nil_r|simpl; lia].
Qed.

(** X9: a request that is not answered with status 200 has written nothing
    and sent nothing: for each of the four handlers, the namespace and the
    downstream calls are then what they were before the request. *)
Theorem failed_request_changes_nothing (env : Env) (w : World) (r : Response)
    (w' : World) :
  status r ≠ 200 →
  (∀ q, GET env q w = (Returns r, w') → same_store w w')
  ∧ (∀ request_json, POST env request_json w = (Returns r, w') →
       same_store w w')
  ∧ (∀ request_json, PUT env request_json w = (Returns r, w') →
       same_store w w')
  ∧ (∀ q, DELETE env q w = (Returns r, w') → same_store w w').
Proof.
  intros Hst. split; [|split; [|split]].
  - intros q H. exact (keeps_GET env q w _ _ H).
  - intros [body|e] H; [|by injection H as _ <-].
    destruct (parse (CreateDeviceRequestSchema env) body) as [req|e] eqn:Hreq.
    + rewrite (POST_run env body req w Hreq) in H. cbv zeta in H.
      destruct (precheck_finds env w (key req)); [by injection H as _ <-|].
      destruct (put_fault env (key req)); injection H as <- <-; done.
    + unfold POST in H. run. rewrite Hreq in H. run. by injection H as _ <-.
  - intros [body|e] H; [|by injection H as _ <-].
    destruct (prepare_update env body w) as [[[r0|u]|e] w1] eqn:Hp;
      pose proof (keeps_prepare_update env body w _ _ Hp) as Hsame.
    + rewrite (PUT_early env body w r0 w1 Hp) in H. by injection H as _ <-.
    + rewrite (PUT_commit env body w u w1 Hp) in H. cbv zeta in H.
      destruct (put_fault env (u_key u)); injection H as <- <-; [|done].
      destruct Hsame. by split.
    + rewrite (PUT_failed env body w e w1 Hp) in H. by injection H as _ <-.
  - intros q H. destruct (bulk_requested q) eqn:Hbulk.
    + rewrite (DELETE_bulk_run env q w Hbulk) in H.
      destruct (keys_fault env); injection H as <- <-; done.
    + destruct (given (q_key q)) eqn:Hkey.
      * destruct (q_key q) as [k|] eqn:Hq; [|done].
        assert (k ≠ "") as Hk by (by destruct k).
        rewrite (DELETE_one_run env q k w Hbulk Hq Hk) in H.
        destruct (readable_text env w k); [|by injection H as _ <-].
        destruct (delete_fault env k); injection H as <- <-; done.
      * rewrite (DELETE_no_key env q w Hbulk Hkey) in H.
        by injection H as _ <-.
Qed.

Lemma failed_request_changes_nothing_witness :
  same_store Reference.house Reference.house.
Proof.
  destruct (failed_request_changes_nothing Reference.env Reference.house
              conflict_response Reference.house) as (_ & Hpost & _).
  - discriminate.
  - apply (Hpost (Returns (Reference.request_body "AABBCCDDEEFF"
                             Reference.desk))).
    vm_compute. reflexivity.
Defined.

(** X10: a delete of one key answers 404 and leaves the world as it was
    when the key is absent, holds the empty text or cannot be read: here a
    read that throws counts as a missing device. *)
Theorem delete_one_of_missing_key (env : Env) (w : World) (q : Query)
    (k : string) :
  bulk_requested q = false → q_key q = Some k → k ≠ "" →
  (kv w !! k = None ∨ entry_value <$> kv w !! k = Some ""
   ∨ get_fault env k ≠ None) →
  DELETE env q w = (Returns no_device, w) ∧ status no_device = 404.
Proof.
  intros Hbulk Hkey Hk Hmiss. split; [|done].
  rewrite (DELETE_one_run env q k w Hbulk Hkey Hk). unfold readable_text.
  destruct (get_fault env k); [done|].
  destruct Hmiss as [->|[H|H]]; [done| |done].
  destruct (kv w !! k) as [e|]; [|done].
  injection H as ->. done.
Qed.

Lemma delete_one_of_missing_key_witness :
  DELETE Reference.env (by_key "UNKNOWNID") Reference.empty_world
  = (Returns no_device, Reference.empty_world)
  ∧ DELETE Reference.env (by_key "BLANK") Reference.house
    = (Returns no_device, Reference.house).
Proof.
  split.
  - apply (delete_one_of_missing_key Reference.env Reference.empty_world
             (by_key "UNKNOWNID") "UNKNOWNID");
      [reflexivity | reflexivity | discriminate | left; reflexivity].
  - apply (delete_one_of_missing_key Reference.env Reference.house
             (by_key "BLANK") "BLANK");
      [reflexivity | reflexivity | discriminate
      | right; left; vm_compute; reflexivity].
Defined.

(** X11: a delete of one key that holds a text that is not empty, with the
    read and the delete going through, removes that key and no other and
    answers with the device_deleted envelope; afterwards a get of the key
    and a second delete of it both answer 404. *)
Theorem delete_one_removes_the_key (env : Env) (w : World) (k : string)
    (e : Entry) :
  k ≠ "" → get_fault env k = None → delete_fault env k = None →
  kv w !! k = Some e → entry_value e ≠ "" →
  let w' := tick (without [k] w) in
  DELETE env (by_key k) w
  = (Returns (device_deleted_response k (clock env (ticks w))), w')
  ∧ kv w' = delete k (kv w)
  ∧ (∀ k', k' ≠ k → kv w' !! k' = kv w !! k')
  ∧ GET env (by_key k) w' = (Returns not_found_device, w')
  ∧ DELETE env (by_key k) w' = (Returns no_device, w').
Proof.
  intros Hk Hget Hdel He Hne w'.
  assert (kv w' !! k = None) as Hgone by apply lookup_delete_eq.
  split; [|split; [done|split; [|split]]].
  - rewrite (DELETE_one_run env (by_key k) k w); [|done..].
    unfold readable_text. rewrite Hget, He, Hdel.
    by destruct (entry_value e).
  - intros k' Hne'. by apply lookup_delete_ne.
  - rewrite (GET_one_run env (by_key k) k w'); [|done..].
    by rewrite Hget, Hgone.
  - rewrite (DELETE_one_run env (by_key k) k w'); [|done..].
    unfold readable_text. by rewrite Hget, Hgone.
Qed.

Lemma delete_one_removes_the_key_witness :
  let w' := tick (without ["AABBCCDDEEFF"] Reference.house) in
  DELETE Reference.env (by_key "AABBCCDDEEFF") Reference.house
  = (Returns (device_deleted_response "AABBCCDDEEFF"
                "2025-06-01T12:00:00.000Z"), w')
  ∧ kv w' !! "00000000000B" = Some (Reference.entry_of Reference.door)
  ∧ GET Reference.env (by_key "AABBCCDDEEFF") w'
    = (Returns not_found_device, w').
Proof.
  destruct (delete_one_removes_the_key Reference.env Reference.house
              "AABBCCDDEEFF" (Reference.entry_of Reference.desk))
    as (Hdel & _ & Hother & Hget & _);
    [discriminate | reflexivity | reflexivity | vm_compute; reflexivity
    | vm_compute; discriminate |].
  split; [exact Hdel|]. split; [|exact Hget].
  rewrite Hother by discriminate. vm_compute. reflexivity.
Defined.

(** X12: a DELETE without a key is answered 400 and changes nothing unless
    it is a complete bulk request: [deleteAll=true] with only one of
    [owner] and [ownerKey] is such a request without a key. *)
Theorem delete_without_key (env : Env) (w : World) (q : Query) :
  given (q_key q) = false →
  given (q_owner q) && given (q_ownerKey q) = false
  ∨ q_deleteAll q ≠ Some "true" →
  DELETE env q w = (Returns missing_key_response, w)
  ∧ status missing_key_response = 400.
Proof.
  intros Hkey Hnot. split; [|done]. apply DELETE_no_key; [|done].
  unfold bulk_requested. destruct Hnot as [Hpair|Hall].
  - rewrite <- andb_assoc, Hpair. apply andb_false_r.
  - destruct (q_deleteAll q) as [s|]; [|done].
    destruct (String.eqb s "true") eqn:E; [|done].
    apply String.eqb_eq in E as ->. done.
Qed.

Lemma delete_without_key_witness :
  DELETE Reference.env
    {| q_key := None; q_owner := Some "alice"; q_ownerKey := None;
       q_deleteAll := Some "true" |} Reference.flat
  = (Returns missing_key_response, Reference.flat).
Proof.
  apply (delete_without_key Reference.env Reference.flat
           {| q_key := None; q_owner := Some "alice"; q_ownerKey := None;
              q_deleteAll := Some "true" |});
    [reflexivity | left; reflexivity].
Defined.

(** X13: a get of one key and the list scans agree, provided [JSON.parse]
    throws on the empty text: when the scans yield a device for the key, the
    get answers with the device_details envelope of that device, and when
    they yield none (the key is absent, unreadable, empty, not JSON or not a
    Device) the get answers with another status than 200 and reads no
    clock. *)
Theorem get_one_agrees_with_the_scans (env : Env) (w : World) (k : string) :
  k ≠ "" →
  (∃ e, JSON_parse env "" = Throws e) →
  match valid_record env w k with
  | Some d =>
      GET env (by_key k) w
      = (Returns (device_details_response k d (clock env (ticks w))), tick w)
  | None =>
      ∃ r, GET env (by_key k) w = (Returns r, w) ∧ status r ≠ 200
  end
  ∧ (get_fault env k = None → kv w !! k = None →
     GET env (by_key k) w = (Returns not_found_device, w)).
Proof.
  intros Hk [e0 Hempty].
  rewrite (GET_one_run env (by_key k) k w); [|done..].
  assert (∀ e op, status (handleError e op) ≠ 200) as Herr
    by (by intros [] ?).
  unfold valid_record. split.
  - destruct (get_fault env k) as [e|].
    { destruct (is_not_found e); eexists; (split; [reflexivity|]);
        first [apply Herr | done]. }
    destruct (kv w !! k) as [x|]; [|by eexists].
    destruct (is_empty (entry_value x)) eqn:Hemp.
    { destruct (entry_value x); [|done]. rewrite Hempty.
      destruct (is_not_found e0); eexists; (split; [reflexivity|]);
        first [apply Herr | done]. }
    destruct (JSON_parse env (entry_value x)) as [j|e].
    + destruct (validateDevice env j) as [d'|e]; [done|].
      destruct (is_not_found e); eexists; (split; [reflexivity|]);
        first [apply Herr | done].
    + destruct (is_not_found e); eexists; (split; [reflexivity|]);
        first [apply Herr | done].
  - intros Hget Hnone. by rewrite Hget, Hnone.
Qed.

Lemma get_one_agrees_with_the_scans_witness :
  GET Reference.env (by_key "AABBCCDDEEFF") Reference.house
  = (Returns (device_details_response "AABBCCDDEEFF" Reference.desk
                "2025-06-01T12:00:00.000Z"), tick Reference.house)
  ∧ GET Reference.env (by_key "0123456789AB") Reference.house
    = (Returns not_found_device, Reference.house).
Proof.
  destruct (get_one_agrees_with_the_scans Reference.env Reference.house
              "AABBCCDDEEFF") as [Hone _];
    [discriminate | eexists; vm_compute; reflexivity |].
  destruct (get_one_agrees_with_the_scans Reference.env Reference.house
              "0123456789AB") as [_ Hnone];
    [discriminate | eexists; vm_compute; reflexivity |].
  split; [exact Hone|]. apply Hnone; vm_compute; reflexivity.
Defined.

Section CreateLemmas.

Context (env : Env).

Lemma stored_text_not_empty v v' :
  JSON_parse env (JSON_stringify env v) = Returns v' →
  (∃ e, JSON_parse env "" = Throws e) →
  is_empty (JSON_stringify env v) = false.
Proof.
  intros Hrt [e He]. destruct (JSON_stringify env v); [|done].
  congruence.
Qed.

Lemma full_update_of_missing_key body req w :
  parse (UpdateDeviceRequestSchema env) body = Returns req →
  get_fault env (key req) = None → kv w !! key req = None →
  full_update env body w =
  (Returns {| u_key := key req; u_data := device_fields (value req);
              u_metadata := metadata req; u_ttl := ttl req |}, w).
Proof.
  intros H Hget Hnone. unfold full_update, values_get. run.
  rewrite H. run. rewrite Hget. run. by rewrite Hnone.
Qed.

Lemma valid_record_in_valid_devices w k d :
  valid_record env w k = Some d → d ∈ valid_devices env w.
Proof.
  intros H. unfold valid_devices, listing. apply list_elem_of_omap.
  exists k. split; [|done]. unfold valid_record in H.
  destruct (get_fault env k); [done|].
  destruct (kv w !! k) as [x|] eqn:Hx; [|done].
  apply list_elem_of_fmap. exists (k, x). split; [done|].
  by apply elem_of_map_to_list.
Qed.

(** A create whose pre-check finds nothing and whose write goes through. *)
Lemma POST_creates body req w :
  parse (CreateDeviceRequestSchema env) body = Returns req →
  precheck_finds env w (key req) = false →
  put_fault env (key req) = None →
  let record := stamped (device_fields (value req)) (clock env (ticks w)) in
  POST env (Returns body) w =
    (Returns (device_created_response (key req) record
                (clock env (S (ticks w)))),
     written w (key req) (entry_for env record (metadata req) (ttl req)) 2 []).
Proof.
  intros Hreq Hpre Hput. rewrite (POST_run env body req w Hreq). cbv zeta.
  by rewrite Hpre, Hput.
Qed.

Lemma created_record_validates body req now :
  parse (CreateDeviceRequestSchema env) body = Returns req →
  isDatetime env now = true →
  validateDevice env (JObj (stamped (device_fields (value req)) now))
  = Returns (normalized_device (value req) now).
Proof.
  intros Hreq Hnow. unfold validateDevice, parse.
  rewrite (stamped_device_validates env [] (value req) now); [done| |done].
  by destruct (CreateDeviceRequestSchema_sound env body req Hreq)
    as (_ & ? & _).
Qed.

End CreateLemmas.

(** X14: a create whose pre-check finds nothing and whose write goes
    through stores the record that [normalizeDeviceData] makes of the
    caller's value, with the options of the request, and that record
    validates, when the clock reads a datetime, to the caller's device with
    its timestamps set: [updatedAt] is the clock reading, [createdAt] is
    the caller's when the caller sends one that is not empty and the clock
    reading otherwise, so that both are equal on a value without
    timestamps. *)
Theorem create_stores_normalized_device (env : Env) (w : World) (body : json)
    (req : CreateDeviceRequest) :
  parse (CreateDeviceRequestSchema env) body = Returns req →
  precheck_finds env w (key req) = false →
  put_fault env (key req) = None →
  let now := clock env (ticks w) in
  let record := stamped (device_fields (value req)) now in
  let d := normalized_device (value req) now in
  POST env (Returns body) w =
    (Returns (device_created_response (key req) record
                (clock env (S (ticks w)))),
     written w (key req) (entry_for env record (metadata req) (ttl req)) 2 [])
  ∧ (isDatetime env now = true → validateDevice env (JObj record) = Returns d)
  ∧ updatedAt d = Some now
  ∧ (createdAt (value req) = None → createdAt d = Some now)
  ∧ (∀ c, createdAt (value req) = Some c → c ≠ "" → createdAt d = Some c).
Proof.
  intros Hreq Hpre Hput now record d.
  split; [|split; [|split; [done|split]]].
  - by apply POST_creates.
  - intros Hnow. by eapply created_record_validates.
  - intros Hc. unfold d. simpl. by rewrite Hc.
  - intros c Hc Hne. unfold d. simpl. rewrite Hc. by destruct c.
Qed.

Lemma create_stores_normalized_device_witness :
  ∃ record w',
    POST Reference.env
      (Returns (Reference.request_body "00000000000D" Reference.porch))
      Reference.house
    = (Returns (device_created_response "00000000000D" record
                  "2025-06-01T12:00:01.000Z"), w')
    ∧ validateDevice Reference.env (JObj record)
      = Returns (Reference.a_device "alice" Reference.alice_key
                   "00000000000D" "Porch" Reference.no_content
                   (Some "2025-06-01T12:00:00.000Z")).
Proof.
  destruct (create_stores_normalized_device Reference.env Reference.house
              (Reference.request_body "00000000000D" Reference.porch)
              (Reference.request_of "00000000000D" Reference.porch))
    as (Hpost & Hvalid & _);
    [vm_compute; reflexivity | vm_compute; reflexivity | reflexivity |].
  eexists _, _. split; [exact Hpost|].
  apply Hvalid. vm_compute. reflexivity.
Defined.

(** X15: what a create stores can be read back: when [JSON.parse] undoes
    [JSON.stringify] on the stored record, throws on the empty text, and
    the clock reads a datetime, the get of the key after a successful
    create answers with the stored device, the device is among those of
    the list-all answer, and a second create under the same key is
    answered with the 409 conflict and changes nothing. *)
Theorem create_then_read_back (env : Env) (w : World) (body : json)
    (req : CreateDeviceRequest) :
  parse (CreateDeviceRequestSchema env) body = Returns req →
  precheck_finds env w (key req) = false →
  put_fault env (key req) = None →
  get_fault env (key req) = None →
  let now := clock env (ticks w) in
  let record := stamped (device_fields (value req)) now in
  let d := normalized_device (value req) now in
  isDatetime env now = true →
  JSON_parse env (JSON_stringify env (JObj record)) = Returns (JObj record) →
  (∃ e, JSON_parse env "" = Throws e) →
  ∃ r w',
    POST env (Returns body) w = (Returns r, w')
    ∧ status r = 200
    ∧ GET env (by_key (key req)) w'
      = (Returns (device_details_response (key req) d (clock env (ticks w'))),
         tick w')
    ∧ d ∈ valid_devices env w'
    ∧ (∀ body2 req2,
         parse (CreateDeviceRequestSchema env) body2 = Returns req2 →
         key req2 = key req →
         POST env (Returns body2) w' = (Returns conflict_response, w')).
Proof.
  intros Hreq Hpre Hput Hget now record d Hnow Hrt Hempty.
  pose proof (POST_creates env body req w Hreq Hpre Hput) as Hpost.
  pose proof (created_record_validates env body req now Hreq Hnow) as Hvalid.
  cbv zeta in Hpost. fold now record in Hpost. fold record d in Hvalid.
  destruct (CreateDeviceRequestSchema_sound env body req Hreq) as (Hkey & _).
  pose proof (stored_text_not_empty env _ _ Hrt Hempty) as Hne.
  eexists _, _. split; [exact Hpost|]. split; [done|].
  set (w' := written w (key req) _ 2 []).
  assert (kv w' !! key req
          = Some (entry_for env record (metadata req) (ttl req)))
    as Hkv by apply lookup_insert_eq.
  assert (valid_record env w' (key req) = Some d) as Hrec.
  { unfold valid_record. rewrite Hget, Hkv.
    cbn [entry_for entry_value]. by rewrite Hne, Hrt, Hvalid. }
  split; [|split].
  - rewrite (GET_one_run env (by_key (key req)) (key req) w'); [|done..].
    rewrite Hget, Hkv. cbn [entry_for entry_value]. by rewrite Hrt, Hvalid.
  - by eapply valid_record_in_valid_devices.
  - intros body2 req2 Hreq2 Hsame.
    rewrite (POST_run env body2 req2 w' Hreq2). cbv zeta.
    unfold precheck_finds. rewrite Hsame, Hget, Hkv.
    cbn [entry_for entry_value]. by rewrite Hne.
Qed.

Lemma create_then_read_back_witness :
  ∃ r w',
    POST Reference.env
      (Returns (Reference.request_body "00000000000D" Reference.porch))
      Reference.house = (Returns r, w')
    ∧ status r = 200
    ∧ POST Reference.env
        (Returns (Reference.request_body "00000000000D" Reference.desk)) w'
      = (Returns conflict_response, w').
Proof.
  destruct (create_then_read_back Reference.env Reference.house
              (Reference.request_body "00000000000D" Reference.porch)
              (Reference.request_of "00000000000D" Reference.porch))
    as (r & w' & Hpost & Hst & _ & _ & Hagain);
    [vm_compute; reflexivity | vm_compute; reflexivity | reflexivity
    | reflexivity | vm_compute; reflexivity | vm_compute; reflexivity
    | eexists; vm_compute; reflexivity |].
  exists r, w'. split; [exact Hpost|]. split; [exact Hst|].
  apply (Hagain _ (Reference.request_of "00000000000D" Reference.desk));
    [vm_compute; reflexivity | reflexivity].
Defined.

(** X16: a full update of a key that is absent creates it: with the read
    and the write going through, PUT leaves in the namespace exactly what
    POST leaves there for the same body on the same world, both are
    answered with status 200, and PUT, unlike POST, makes the downstream
    call. *)
Theorem full_update_of_missing_key_creates (env : Env) (w : World)
    (body : json) (req : UpdateDeviceRequest) :
  full_update_request env body req →
  get_fault env (key req) = None → kv w !! key req = None →
  put_fault env (key req) = None →
  ∃ r1 r2 w1 w2,
    POST env (Returns body) w = (Returns r1, w1)
    ∧ PUT env (Returns body) w = (Returns r2, w2)
    ∧ status r1 = 200 ∧ status r2 = 200
    ∧ kv w2 = kv w1
    ∧ kv w2 !! key req
      = Some (entry_for env (stamped (device_fields (value req))
                               (clock env (ticks w)))
                (metadata req) (ttl req))
    ∧ outbox w1 = outbox w
    ∧ outbox w2
      = (outbox w ++ [notify_request env (device_fields (value req))])%list.
Proof.
  intros [Hcontent Hfull] Hget Hnone Hput.
  pose proof (full_update_of_missing_key env body req w Hfull Hget Hnone)
    as Hrun.
  assert (prepare_update env body w
          = (Returns (inr {| u_key := key req;
                             u_data := device_fields (value req);
                             u_metadata := metadata req;
                             u_ttl := ttl req |}), w)) as Hprep
    by (rewrite prepare_update_full by done; run; by rewrite Hrun).
  eexists _, _, _, _. split.
  { rewrite (POST_run env body req w Hfull). cbv zeta.
    unfold precheck_finds. rewrite Hget, Hnone, Hput. reflexivity. }
  split.
  { rewrite (PUT_commit env body w _ _ Hprep). cbv zeta. simpl.
    rewrite Hput. reflexivity. }
  split; [done|]. split; [done|]. split; [done|].
  split; [apply lookup_insert_eq|]. split; [simpl; by rewrite app_nil_r|].
  simpl. f_equal.
  rewrite (stamped_other _ _ "content"), device_fields_content by done.
  simpl. f_equal. apply notify_request_same, stamped_other.
Qed.

Lemma full_update_of_missing_key_creates_witness :
  ∃ r1 r2 w1 w2,
    POST Reference.env
      (Returns (Reference.request_body "0123456789AB" Reference.shelf))
      Reference.house = (Returns r1, w1)
    ∧ PUT Reference.env
        (Returns (Reference.request_body "0123456789AB" Reference.shelf))
        Reference.house = (Returns r2, w2)
    ∧ kv w2 = kv w1
    ∧ length (outbox w1) = 0 ∧ length (outbox w2) = 1.
Proof.
  destruct (full_update_of_missing_key_creates Reference.env Reference.house
              (Reference.request_body "0123456789AB" Reference.shelf)
              (Reference.request_of "0123456789AB" Reference.shelf))
    as (r1 & r2 & w1 & w2 & H1 & H2 & _ & _ & Hkv & _ & Ho1 & Ho2);
    [split; [eexists; vm_compute; reflexivity | vm_compute; reflexivity]
    | reflexivity | vm_compute; reflexivity | reflexivity |].
  exists r1, r2, w1, w2. split; [exact H1|]. split; [exact H2|].
  split; [exact Hkv|]. rewrite Ho1, Ho2. split; reflexivity.
Defined.

Section ContentUpdates.

Context (env : Env).

(** The first half of PUT on a body that the content schema accepts, when
    the read goes through. *)
Lemma prepare_update_content body creq w :
  parse UpdateDeviceContentRequestSchema body = Returns creq →
  get_fault env (content_key creq) = None →
  prepare_update env body w =
  match kv w !! content_key creq with
  | None => (Returns (inl no_device), w)
  | Some e =>
      if is_empty (entry_value e) then (Returns (inl no_device), w)
      else
        match JSON_parse env (entry_value e) with
        | Returns existing =>
            (Returns
               (inr {| u_key := content_key creq;
                       u_data :=
                         obj_set "updatedAt" (JStr (clock env (ticks w)))
                           (obj_set "content"
                              (content_to_json (content_patch creq))
                              (own_entries existing));
                       u_metadata := None; u_ttl := None |}),
             tick w)
        | Throws _ => (u ← full_update env body; mret (inr u)) w
        end
  end.
Proof.
  intros Hreq Hget. unfold prepare_update, content_update, values_get. run.
  rewrite Hreq. run. rewrite Hget. run.
  destruct (kv w !! content_key creq) as [e|]; run; [|done].
  destruct (is_empty (entry_value e)); run; [done|].
  destruct (JSON_parse env (entry_value e)); run; done.
Qed.

Lemma content_only_body_parses body creq :
  parse UpdateDeviceContentRequestSchema body = Returns creq →
  parse UpdateDeviceContentRequestSchema (content_only_body creq)
  = Returns creq.
Proof.
  unfold parse.
  destruct (UpdateDeviceContentRequestSchema [] (Some body)) as [i|r] eqn:H;
    [discriminate|].
  intros E. injection E as <-.
  unfold UpdateDeviceContentRequestSchema, z_object in H.
  destruct body as [| | | | |fs]; try discriminate.
  repeat (apply zap_inr in H as (? & ? & H & ? & ->)).
  injection H as <-. unfold field in *.
  match goal with H : z_string _ _ _ = inr _ |- _ =>
    apply z_string_inr in H as [_ Hk]; apply run_checks_nil in Hk end.
  match goal with H : DeviceContentSchema _ _ = inr _ |- _ =>
    apply DeviceContentSchema_inr in H as [Hc _] end.
  unfold content_only_body, UpdateDeviceContentRequestSchema, z_object, field.
  cbn [assoc String.eqb Ascii.eqb Bool.eqb content_key content_patch].
  by rewrite (z_string_ok _ _ _ Hk), (DeviceContentSchema_ok _ _ Hc).
Qed.

End ContentUpdates.

(** X17: a content update of a key whose text is not empty and parses, with
    the read and the write going through, writes the stored value with its
    [content] replaced by the content of the request: [updatedAt] is a clock
    reading of the request, [createdAt] is the stored one when that is
    truthy, and every other property is the stored one.  The stored value
    is not validated, the entry is written without metadata or ttl, and the
    downstream call bears the stored [ownerKey]. *)
Theorem content_update_patches_stored_value (env : Env) (w : World)
    (body : json) (creq : UpdateDeviceContentRequest) (e : Entry)
    (existing : json) :
  parse UpdateDeviceContentRequestSchema body = Returns creq →
  get_fault env (content_key creq) = None →
  kv w !! content_key creq = Some e →
  entry_value e ≠ "" →
  JSON_parse env (entry_value e) = Returns existing →
  put_fault env (content_key creq) = None →
  (∀ i, clock env i ≠ "") →
  let k := content_key creq in
  let stored := own_entries existing in
  let record := patched existing (content_patch creq) (clock env (ticks w))
                  (clock env (S (ticks w))) in
  PUT env (Returns body) w =
    (Returns (device_updated_response k record (clock env (S (S (ticks w))))),
     written w k (entry_for env record None None) 3
       [notify_request env record])
  ∧ assoc "content" record = Some (content_to_json (content_patch creq))
  ∧ assoc "updatedAt" record = Some (JStr (clock env (S (ticks w))))
  ∧ (truthy (assoc "createdAt" stored) = true →
     assoc "createdAt" record = assoc "createdAt" stored)
  ∧ (∀ p, p ≠ "content" → p ≠ "createdAt" → p ≠ "updatedAt" →
          assoc p record = assoc p stored)
  ∧ headers (notify_request env record)
    = [("Authorization", "Bearer " ++ template (assoc "ownerKey" stored));
       ("Content-Type", "application/json")].
Proof.
  intros Hreq Hget Hkv Hne Hjson Hput Hclock k stored record.
  assert (∀ i, truthy (Some (JStr (clock env i))) = true) as Hnow
    by (intros i; specialize (Hclock i); simpl; by destruct (clock env i)).
  pose proof (prepare_update_content env body creq w Hreq Hget) as Hprep.
  rewrite Hkv, Hjson in Hprep.
  assert (is_empty (entry_value e) = false) as Hemp
    by (by destruct (entry_value e)).
  rewrite Hemp in Hprep.
  assert (assoc "content" record = Some (content_to_json (content_patch creq)))
    as Hcontent.
  { unfold record, patched. rewrite (stamped_other _ _ "content") by done.
    rewrite assoc_obj_set_ne by done. apply assoc_obj_set_eq. }
  split; [|split; [done|split; [|split; [|split]]]].
  - rewrite (PUT_commit env body w _ _ Hprep). cbv zeta. simpl.
    rewrite Hput. fold stored.
    change (stamped _ (clock env (S (ticks w)))) with record.
    rewrite Hcontent. reflexivity.
  - apply stamped_updatedAt.
  - intros Ht. unfold record, patched. rewrite stamped_createdAt.
    rewrite !assoc_obj_set_ne by done. fold stored. unfold value_or.
    destruct (assoc "createdAt" stored) as [x|]; [|discriminate Ht].
    by rewrite Ht.
  - intros p Hp1 Hp2 Hp3. unfold record, patched.
    rewrite (stamped_other _ _ p) by done.
    by rewrite !assoc_obj_set_ne.
  - unfold notify_request. simpl. do 3 f_equal.
    unfold record, patched. rewrite (stamped_other _ _ "ownerKey") by done.
    by rewrite !assoc_obj_set_ne.
Qed.

Lemma content_update_patches_stored_value_witness :
  ∃ record w',
    PUT Reference.env
      (Returns (Reference.content_body "AABBCCDDEEFF" Reference.no_content))
      Reference.house
    = (Returns (device_updated_response "AABBCCDDEEFF" record
                  "2025-06-01T12:00:02.000Z"), w')
    ∧ assoc "content" record = Some (JObj [])
    ∧ assoc "name" record = Some (JStr "Desk")
    ∧ assoc "createdAt" record = Some (JStr "2024-02-03T04:05:06.000Z")
    ∧ kv w' !! "AABBCCDDEEFF"
      = Some (entry_for Reference.env record None None).
Proof.
  destruct (content_update_patches_stored_value Reference.env Reference.house
              (Reference.content_body "AABBCCDDEEFF" Reference.no_content)
              {| content_key := "AABBCCDDEEFF";
                 content_patch := Reference.no_content |}
              (Reference.entry_of Reference.desk)
              (device_to_json Reference.desk))
    as (Hput & Hc & _ & Hca & Hrest & _);
    [vm_compute; reflexivity | reflexivity | vm_compute; reflexivity
    | vm_compute; discriminate | vm_compute; reflexivity | reflexivity
    | intros i E; vm_compute in E; discriminate E |].
  eexists _, _. split; [exact Hput|]. split; [exact Hc|].
  split; [rewrite Hrest by discriminate; reflexivity|].
  split; [rewrite Hca; reflexivity|]. apply lookup_insert_eq.
Defined.

(** X18: a body that the content schema accepts is handled as a content
    update whatever else it carries: when the read goes through and the
    stored text, if there is one that is not empty, parses, PUT does with
    the body what it does with the body [{ key, content }] alone, so that a
    [value] sent along is never used. *)
Theorem content_wins_over_value (env : Env) (w : World) (body : json)
    (creq : UpdateDeviceContentRequest) :
  parse UpdateDeviceContentRequestSchema body = Returns creq →
  get_fault env (content_key creq) = None →
  (∀ e, kv w !! content_key creq = Some e → entry_value e ≠ "" →
        ∃ existing, JSON_parse env (entry_value e) = Returns existing) →
  PUT env (Returns body) w = PUT env (Returns (content_only_body creq)) w.
Proof.
  intros Hreq Hget Hparses.
  pose proof (content_only_body_parses body creq Hreq) as Hreq'.
  assert (prepare_update env body w
          = prepare_update env (content_only_body creq) w) as Hsame.
  { rewrite (prepare_update_content env body creq w Hreq Hget).
    rewrite (prepare_update_content env _ creq w Hreq' Hget).
    destruct (kv w !! content_key creq) as [e|]; [|done].
    destruct (is_empty (entry_value e)) eqn:Hemp; [done|].
    destruct (Hparses e eq_refl) as [existing ->]; [|done].
    intros E. by rewrite E in Hemp. }
  unfold PUT. run. by rewrite Hsame.
Qed.

Lemma content_wins_over_value_witness :
  PUT Reference.env
    (Returns (JObj [("key", JStr "AABBCCDDEEFF");
                    ("content", content_to_json Reference.no_content);
                    ("value", device_to_json Reference.desk_renamed)]))
    Reference.house
  = PUT Reference.env
      (Returns (Reference.content_body "AABBCCDDEEFF" Reference.no_content))
      Reference.house.
Proof.
  apply (content_wins_over_value Reference.env Reference.house _
           {| content_key := "AABBCCDDEEFF";
              content_patch := Reference.no_content |});
    [vm_compute; reflexivity | reflexivity |].
  intros e He _. vm_compute in He. injection He as <-.
  eexists. vm_compute. reflexivity.
Defined.

(** X19: [normalizeDeviceData] sets [createdAt] once: of two normalizations
    in a row, the second keeps the [createdAt] that the first has left and
    moves [updatedAt] to its own clock reading, every other property being
    that of the data (the clock never reads the empty text). *)
Theorem normalize_twice_keeps_createdAt (env : Env) (w : World)
    (rawData : list (string * json)) :
  (∀ i, clock env i ≠ "") →
  let once := stamped rawData (clock env (ticks w)) in
  let twice := stamped once (clock env (S (ticks w))) in
  (normalizeDeviceData env rawData ≫= normalizeDeviceData env) w
  = (Returns twice, tick (tick w))
  ∧ assoc "createdAt" twice = assoc "createdAt" once
  ∧ assoc "updatedAt" once = Some (JStr (clock env (ticks w)))
  ∧ assoc "updatedAt" twice = Some (JStr (clock env (S (ticks w))))
  ∧ same_but_stamps twice rawData.
Proof.
  intros Hclock once twice.
  assert (∀ i, truthy (Some (JStr (clock env i))) = true) as Hnow
    by (intros i; specialize (Hclock i); simpl; by destruct (clock env i)).
  split; [done|]. split; [|split; [|split]].
  - unfold twice. rewrite stamped_createdAt. unfold once at 2.
    rewrite stamped_createdAt. f_equal. unfold once.
    rewrite stamped_createdAt. unfold value_or at 1.
    destruct (assoc "createdAt" rawData) as [x|] eqn:Hx.
    + unfold value_or. destruct (truthy (Some x)) eqn:Ht.
      * by rewrite Ht.
      * by rewrite Hnow.
    + unfold value_or. by rewrite Hnow.
  - apply stamped_updatedAt.
  - apply stamped_updatedAt.
  - eapply same_but_stamps_trans; apply stamped_other.
Qed.

Lemma normalize_twice_keeps_createdAt_witness :
  let once := stamped (device_fields Reference.porch)
                (clock Reference.env 0) in
  let twice := stamped once (clock Reference.env 1) in
  assoc "createdAt" twice = Some (JStr "2025-06-01T12:00:00.000Z")
  ∧ assoc "updatedAt" twice = Some (JStr "2025-06-01T12:00:01.000Z").
Proof.
  destruct (normalize_twice_keeps_createdAt Reference.env
              Reference.empty_world (device_fields Reference.porch))
    as (_ & Hc & _ & Hu & _).
  - intros i E. vm_compute in E. discriminate E.
  - split; [etransitivity; [exact Hc | vm_compute; reflexivity] | exact Hu].
Defined.

Section ScanLemmas.

Context (env : Env).

Lemma filter_none {A} (f : A → bool) (l : list A) :
  (∀ x, x ∈ l → f x = false) → List.filter f l = [].
Proof.
  induction l as [|x l IH]; intros H; [done|]. simpl.
  rewrite (H x) by apply list_elem_of_here.
  apply IH. intros y Hy. apply H. by apply list_elem_of_further.
Qed.

Lemma valid_record_stored w k d :
  valid_record env w k = Some d → is_Some (kv w !! k).
Proof.
  unfold valid_record. destruct (get_fault env k); [done|].
  by destruct (kv w !! k).
Qed.

Lemma elem_of_valid_devices w d :
  d ∈ valid_devices env w ↔ ∃ k, valid_record env w k = Some d.
Proof.
  split.
  - unfold valid_devices. rewrite list_elem_of_omap. intros (k & _ & H). eauto.
  - intros [k H]. by eapply valid_record_in_valid_devices.
Qed.

Lemma valid_record_device_ok w k d :
  valid_record env w k = Some d → device_ok env d = true.
Proof.
  unfold valid_record. destruct (get_fault env k); [done|].
  destruct (kv w !! k) as [x|]; [|done].
  destruct (is_empty (entry_value x)); [done|].
  destruct (JSON_parse env (entry_value x)) as [j|]; [|done].
  unfold validateDevice, parse.
  destruct (DeviceSchema env [] (Some j)) as [i|d'] eqn:H; [done|].
  intros E. injection E as <-. by eapply DeviceSchema_sound.
Qed.

Lemma valid_record_after_deletes items w k :
  valid_record env (tick (without items w)) k =
  if bool_decide (k ∈ items) then None else valid_record env w k.
Proof.
  unfold valid_record. change (kv (tick ?x)) with (kv x).
  rewrite lookup_without. destruct (get_fault env k); by case_bool_decide.
Qed.

Lemma owned_by_spec w o k item :
  owned_by env w o k item = true ↔
  ∃ d, valid_record env w item = Some d ∧ validateDeviceOwnership d o k = true.
Proof.
  unfold owned_by, validateDeviceOwnership.
  destruct (valid_record env w item) as [d|].
  - split; [eauto|]. by intros (d' & [= <-] & H).
  - split; [done|]. by intros (d' & ? & _).
Qed.

Lemma QueryDevicesByOwnerSchema_refuses o k e :
  parse QueryDevicesByOwnerSchema (owner_pair o k) = Throws e →
  o ≠ "" → re_ownerKey k = false.
Proof.
  intros H Ho. destruct (re_ownerKey k) eqn:Hk; [|done]. exfalso.
  unfold parse, owner_pair, QueryDevicesByOwnerSchema, z_object, field in H.
  cbn [assoc String.eqb Ascii.eqb Bool.eqb] in H.
  rewrite !z_string_ok in H; [done| |].
  - by repeat constructor.
  - repeat constructor. by destruct o.
Qed.

End ScanLemmas.

(** X20: a bulk delete of a supplied pair in which every delete goes through
    leaves no device of the pair: the owner request that follows it answers
    with the empty list, and the devices of the list-all request are then
    those of before that are not of the pair. *)
Theorem bulk_delete_then_lists (env : Env) (w : World) (o k : string) :
  keys_fault env = None → o ≠ "" → k ≠ "" →
  (∀ item, delete_fault env item = None) →
  ∃ r w',
    DELETE env (bulk_delete_query o k) w = (Returns r, w')
    ∧ status r = 200
    ∧ GET env (by_owner o k) w'
      = (Returns (devices_by_owner_response o [] (clock env (ticks w'))),
         tick w')
    ∧ (∀ d, d ∈ valid_devices env w' ↔
            d ∈ valid_devices env w ∧ validateDeviceOwnership d o k = false).
Proof.
  intros Hkeys Ho Hk Hdel.
  assert (bulk_requested (bulk_delete_query o k) = true) as Hbulk
    by (by destruct o, k).
  pose proof (DELETE_bulk_run env (bulk_delete_query o k) w Hbulk) as Hrun.
  rewrite Hkeys in Hrun. cbv zeta in Hrun. simpl param in Hrun.
  set (gone := List.filter (deletable env w o k) (listing w)) in Hrun.
  assert (∀ item, valid_record env (tick (without gone w)) item =
                  if owned_by env w o k item then None
                  else valid_record env w item) as Hrec.
  { intros item. rewrite valid_record_after_deletes.
    assert (deletable env w o k item = owned_by env w o k item) as Hd
      by (unfold deletable; rewrite Hdel; apply andb_true_r).
    case_bool_decide as Hin.
    - apply list_elem_of_In, filter_In in Hin as [_ Hin].
      by rewrite <- Hd, Hin.
    - destruct (owned_by env w o k item) eqn:Hown; [|done].
      destruct (valid_record env w item) as [d|] eqn:Hv; [|done].
      exfalso. apply Hin, list_elem_of_In, filter_In. split; [|by rewrite Hd].
      destruct (valid_record_stored env w item d Hv) as [x Hx].
      apply list_elem_of_In, list_elem_of_fmap. exists (item, x).
      split; [done|]. by apply elem_of_map_to_list. }
  assert (∀ d, d ∈ valid_devices env (tick (without gone w)) ↔
               d ∈ valid_devices env w ∧ validateDeviceOwnership d o k = false)
    as Hleft.
  { intros d. rewrite !elem_of_valid_devices. split.
    - intros [item Hitem]. rewrite Hrec in Hitem.
      destruct (owned_by env w o k item) eqn:Hown; [done|].
      split; [eauto|].
      destruct (validateDeviceOwnership d o k) eqn:Hv; [|done].
      assert (owned_by env w o k item = true) as Hyes
        by (apply owned_by_spec; eauto).
      congruence.
    - intros [[item Hitem] Hnot]. exists item. rewrite Hrec.
      destruct (owned_by env w o k item) eqn:Hown; [|done].
      apply owned_by_spec in Hown as (d' & Hd' & Hv). congruence. }
  eexists _, _. split; [exact Hrun|]. split; [done|]. split; [|exact Hleft].
  rewrite (GET_owned_run env (by_owner o k)); [|done|by destruct o, k].
  simpl param. do 3 f_equal.
  apply filter_none. intros d Hd. by apply Hleft in Hd as [_ Hd].
Qed.

Lemma bulk_delete_then_lists_witness :
  ∃ r w',
    DELETE Reference.env (bulk_delete_query "alice" Reference.alice_key)
      Reference.flat = (Returns r, w')
    ∧ GET Reference.env (by_owner "alice" Reference.alice_key) w'
      = (Returns (devices_by_owner_response "alice" []
                    "2025-06-01T12:00:01.000Z"), tick w')
    ∧ Reference.attic ∈ valid_devices Reference.env w'.
Proof.
  destruct (bulk_delete_then_lists Reference.env Reference.flat "alice"
              Reference.alice_key)
    as (r & w' & Hdel & _ & Hget & Hleft);
    [reflexivity | discriminate | discriminate | reflexivity |].
  exists r, w'. split; [exact Hdel|]. split.
  - rewrite Hget. do 3 f_equal.
    assert (ticks w' = 1) as ->; [|reflexivity].
    rewrite (DELETE_bulk_run Reference.env
               (bulk_delete_query "alice" Reference.alice_key)
               Reference.flat eq_refl) in Hdel.
    by injection Hdel as _ <-.
  - apply Hleft. split; [|reflexivity].
    apply list_elem_of_In. vm_compute. tauto.
Defined.

(** X21: [getDevicesServerSide] in a browser returns no device and the
    message of its own error; on the server it returns, when the listing is
    available, the devices that the list-all request of the API returns and
    no error, and when the listing throws, no device and the message of
    what was thrown, or its fallback text when that has none.  It leaves the
    world as it was. *)
Theorem getDevicesServerSide_lists_or_reports (env : Env)
    (zod_message : list ZodIssue → string) (w : World) :
  getDevicesServerSide env zod_message true w
  = (Returns {| ss_devices := [];
                ss_error :=
                  Some "This function should only be called on the server side" |},
     w)
  ∧ (keys_fault env = None →
     getDevicesServerSide env zod_message false w
     = (Returns {| ss_devices := valid_devices env w; ss_error := None |}, w)
     ∧ GET env no_query w
       = (Returns (all_devices_response (valid_devices env w)
                     (clock env (ticks w))), tick w))
  ∧ (∀ e, keys_fault env = Some e →
       getDevicesServerSide env zod_message false w
       = (Returns {| ss_devices := [];
                     ss_error :=
                       Some (default "获取设备数据失败"
                               (error_message zod_message e)) |}, w)).
Proof.
  split; [done|]. split.
  - intros Hkeys. split; [|by apply GET_all_run].
    unfold getDevicesServerSide. run.
    rewrite (keys_list_run env w Hkeys), for_of_visit_any. reflexivity.
  - intros e Hkeys. unfold getDevicesServerSide, keys_list. run.
    by rewrite Hkeys.
Qed.

Lemma getDevicesServerSide_lists_or_reports_witness :
  getDevicesServerSide Reference.env (fun _ => "") false Reference.house
  = (Returns {| ss_devices := valid_devices Reference.env Reference.house;
                ss_error := None |}, Reference.house)
  ∧ length (valid_devices Reference.env Reference.house) = 3.
Proof.
  destruct (getDevicesServerSide_lists_or_reports Reference.env (fun _ => "")
              Reference.house) as (_ & Hok & _).
  split; [apply Hok; reflexivity | vm_compute; reflexivity].
Defined.

(** X22: the owner branch of GET does not apply [QueryDevicesByOwnerSchema]:
    a supplied pair that this schema refuses is not answered with an error
    but, the listing being available, with status 200 and the empty list,
    since no valid device bears such an [ownerKey]. *)
Theorem owner_query_is_not_validated (env : Env) (w : World) (q : Query)
    (o k : string) (e : Exn) :
  keys_fault env = None →
  q_owner q = Some o → q_ownerKey q = Some k → o ≠ "" → k ≠ "" →
  parse QueryDevicesByOwnerSchema (owner_pair o k) = Throws e →
  GET env q w
  = (Returns (devices_by_owner_response o [] (clock env (ticks w))), tick w)
  ∧ status (devices_by_owner_response o [] (clock env (ticks w))) = 200.
Proof.
  intros Hkeys Hqo Hqk Ho Hk Hrefused. split; [|done].
  pose proof (QueryDevicesByOwnerSchema_refuses o k e Hrefused Ho) as Hbad.
  rewrite (GET_owned_run env q w Hkeys);
    [|rewrite Hqo, Hqk; by destruct o, k].
  rewrite Hqo, Hqk. simpl param. do 3 f_equal.
  apply filter_none. intros d Hd.
  apply elem_of_valid_devices in Hd as [item Hitem].
  apply valid_record_device_ok in Hitem.
  unfold device_ok in Hitem. rewrite !andb_true_iff in Hitem.
  destruct Hitem as [[[[[[[[_ _] Hkey] _] _] _] _] _] _].
  unfold validateDeviceOwnership.
  destruct (String.eqb (ownerKey d) k) eqn:E; [|apply andb_false_r].
  apply String.eqb_eq in E. congruence.
Qed.

Lemma owner_query_is_not_validated_witness :
  GET Reference.env (by_owner "alice" "not-a-key") Reference.house
  = (Returns (devices_by_owner_response "alice" []
                "2025-06-01T12:00:00.000Z"), tick Reference.house).
Proof.
  eapply (owner_query_is_not_validated Reference.env Reference.house
            (by_owner "alice" "not-a-key") "alice" "not-a-key");
    [reflexivity | reflexivity | reflexivity | discriminate | discriminate
    | vm_compute; reflexivity].
Defined.

Lemma prefix_spec n h : String.prefix n h = true ↔ ∃ b, h = n ++ b.
Proof.
  revert h. induction n as [|c n IH]; intros h.
  - destruct h; simpl; split; eauto.
  - destruct h as [|c' h]; simpl.
    { split; [done|]. by intros [? ?]. }
    destruct (ascii_dec c c') as [->|Hne].
    + rewrite IH. split; intros [b Hb]; exists b; [by rewrite Hb|].
      by injection Hb.
    + split; [done|]. intros [b Hb]. by injection Hb.
Qed.

Lemma includes_spec n h : includes n h = true ↔ ∃ a b, h = a ++ n ++ b.
Proof.
  induction h as [|c h IH]; cbn [includes]; rewrite orb_true_iff, prefix_spec.
  - split.
    + intros [[b Hb]|]; [|done]. by exists "", b.
    + intros (a & b & H). left. destruct a; [by exists b|done].
  - rewrite IH. split.
    + intros [[b Hb]|(a & b & Hab)]; [by exists "", b|].
      exists (String c a), b. simpl. by rewrite Hab.
    + intros (a & b & H). destruct a as [|c' a]; [left; by exists b|].
      right. injection H as _ H. by exists a, b.
Qed.

(** X23: when the read of a get of one key throws an Error, the answer
    depends on its message alone: 404 when the message contains the text
    not found, and otherwise 500 with the message as details; the world is
    left as it was. *)
Theorem get_one_when_read_throws (env : Env) (w : World) (k msg : string) :
  k ≠ "" → get_fault env k = Some (JsError msg) →
  ((∃ a b, msg = a ++ "not found" ++ b) →
   GET env (by_key k) w = (Returns not_found_device, w)
   ∧ status not_found_device = 404)
  ∧ ((¬ ∃ a b, msg = a ++ "not found" ++ b) →
     GET env (by_key k) w
     = (Returns (NextResponse_json
                   [("error", JStr "获取设备数据失败"); ("details", JStr msg)]
                   500), w)).
Proof.
  intros Hk Hget. rewrite (GET_one_run env (by_key k) k w); [|done..].
  rewrite Hget. cbn [is_not_found]. split.
  - intros H. apply includes_spec in H as ->. done.
  - intros H. destruct (includes "not found" msg) eqn:E; [|done].
    by apply includes_spec in E.
Qed.

Lemma get_one_when_read_throws_witness :
  GET (env_unreadable_with Reference.env "404 key not found") (by_key "AABBCCDDEEFF")
    Reference.house
  = (Returns not_found_device, Reference.house)
  ∧ GET (env_unreadable_with Reference.env "429 rate limited") (by_key "AABBCCDDEEFF")
      Reference.house
    = (Returns (NextResponse_json
                  [("error", JStr "获取设备数据失败");
                   ("details", JStr "429 rate limited")] 500),
       Reference.house).
Proof.
  split.
  - apply (get_one_when_read_throws
             (env_unreadable_with Reference.env "404 key not found") Reference.house
             "AABBCCDDEEFF" "404 key not found");
      [discriminate | reflexivity |].
    by exists "404 key ", "".
  - apply (get_one_when_read_throws
             (env_unreadable_with Reference.env "429 rate limited") Reference.house
             "AABBCCDDEEFF" "429 rate limited");
      [discriminate | reflexivity |].
    intros H. apply includes_spec in H. vm_compute in H. discriminate H.
Defined.
